(** * ls-governor: the manager service of [governor.go]

    A shallow embedding of package [governor] (one Go file) and of the
    observable behaviour of the collaborators it calls ([go-toml],
    [ls-superbase], [ls-config], [ls-fibre], [os], [log]).

    Go values are modelled as follows.
    - A possibly nil pointer or map is an [option]; [None] is [nil].
    - The [*superbase.DBConfig] values kept in [ManagerService.DBConfig]
      are pointers: the model has a heap of descriptors and the registry
      maps an application name to a location, so that aliasing between two
      registry entries can be expressed.
    - A method that can return, panic or terminate the process has an
      [outcome]; stateful methods run in the monad [M].
    [Daemonize] only blocks in the web server of [ls-fibre] and is left
    out. *)

From Stdlib Require Import ZArith Ascii String.
From stdpp Require Import gmap strings list fin_maps.

Set Warnings "-register-all".
Local Open Scope string_scope.
Local Open Scope list_scope.

(** A Go [error] is modelled by its message; [None] is the nil error. *)
Abbreviation Error := (option string).

(** ** [strings] *)

Module strings.

(** [strings.Split(s, ".")]: the pieces of [s] between the dots; a string
    without a dot is its own single piece, the empty string too. *)
Fixpoint Split (s : string) : list string :=
  match s with
  | EmptyString => [""]
  | String c rest =>
      if Ascii.eqb c "."%char then "" :: Split rest
      else match Split rest with
           | piece :: pieces => String c piece :: pieces
           | [] => [String c ""]
           end
  end.

(** No byte of the string is a dot. *)
Fixpoint bare (s : string) : bool :=
  match s with
  | EmptyString => true
  | String c rest => negb (Ascii.eqb c "."%char) && bare rest
  end.

End strings.

(** ** [go-toml]: the configuration tree *)

Module toml.

(** The Go values a TOML leaf can hold. Floats are kept by their bit
    pattern; only the dynamic type matters to the governor. *)
Inductive Value :=
| VString (s : string)
| VInteger (z : Z)
| VFloat (bits : Z)
| VBool (b : bool)
| VArray (vs : list Value).

(** What a key of a [*toml.Tree] is bound to: a leaf ([*tomlValue]), a
    table ([*Tree]) or an array of tables ([[]*Tree]). *)
Inductive Node :=
| Leaf (v : Value)
| Table (values : gmap string Node)
| TableArray (tables : list (gmap string Node)).

Abbreviation Tree := (gmap string Node).

(** [Tree.GetPath]: walk through all keys but the last, entering
    tables and the most recent element of arrays of tables, then read the
    last key. [None] is Go's [nil]. *)
Fixpoint GetPath (keys : list string) (t : Tree) : option Node :=
  match keys with
  | [] => Some (Table t)
  | [k] => t !! k
  | k :: (_ :: _) as rest =>
      match t !! k with
      | Some (Table sub) => GetPath rest sub
      | Some (TableArray tables) =>
          match last tables with
          | Some sub => GetPath rest sub
          | None => None
          end
      | _ => None
      end
  end.

(** [Tree.Get] on a non-nil tree: the key is a dot-separated path. *)
Definition Get (t : Tree) (key : string) : option Node :=
  if decide (key = "") then Some (Table t)
  else GetPath (strings.Split key) t.

End toml.

Import toml.

(** ** [ls-superbase]: the datastore descriptor *)

Module superbase.

(** The connection handle ([*gorm.DB]); only its identity is observed. *)
Inductive Handle := Opened (id : nat).

Record DBConfig := {
  Server : string;
  Port : string;
  Database : string;
  User : string;
  Password : string;
  Driver : string;
  Path : string;
  Connection : option Handle
}.

(** [&superbase.DBConfig{}]: every field at its zero value. *)
Definition zero : DBConfig :=
  {| Server := ""; Port := ""; Database := ""; User := ""; Password := "";
     Driver := ""; Path := ""; Connection := None |}.

Definition set_Server (v : string) (d : DBConfig) : DBConfig :=
  {| Server := v; Port := Port d; Database := Database d; User := User d;
     Password := Password d; Driver := Driver d; Path := Path d;
     Connection := Connection d |}.

Definition set_Port (v : string) (d : DBConfig) : DBConfig :=
  {| Server := Server d; Port := v; Database := Database d; User := User d;
     Password := Password d; Driver := Driver d; Path := Path d;
     Connection := Connection d |}.

Definition set_Database (v : string) (d : DBConfig) : DBConfig :=
  {| Server := Server d; Port := Port d; Database := v; User := User d;
     Password := Password d; Driver := Driver d; Path := Path d;
     Connection := Connection d |}.

Definition set_User (v : string) (d : DBConfig) : DBConfig :=
  {| Server := Server d; Port := Port d; Database := Database d; User := v;
     Password := Password d; Driver := Driver d; Path := Path d;
     Connection := Connection d |}.

Definition set_Password (v : string) (d : DBConfig) : DBConfig :=
  {| Server := Server d; Port := Port d; Database := Database d; User := User d;
     Password := v; Driver := Driver d; Path := Path d;
     Connection := Connection d |}.

Definition set_Driver (v : string) (d : DBConfig) : DBConfig :=
  {| Server := Server d; Port := Port d; Database := Database d; User := User d;
     Password := Password d; Driver := v; Path := Path d;
     Connection := Connection d |}.

Definition set_Path (v : string) (d : DBConfig) : DBConfig :=
  {| Server := Server d; Port := Port d; Database := Database d; User := User d;
     Password := Password d; Driver := Driver d; Path := v;
     Connection := Connection d |}.

Definition set_Connection (c : option Handle) (d : DBConfig) : DBConfig :=
  {| Server := Server d; Port := Port d; Database := Database d; User := User d;
     Password := Password d; Driver := Driver d; Path := Path d;
     Connection := c |}.

(** The storage engine: what opening a connection for a descriptor gives, a
    handle or the cause of the failure. *)
Abbreviation Engine := (DBConfig -> Handle + string).

(** Modelled from the spec: [DBConfig.Init] is not part of this repository.
    It asks the storage engine for a connection with the full descriptor and
    keeps the handle in [Connection], which is set only after a successful
    establishment; the outcome of the establishment is its result. *)
Definition Init (connect : Engine) (d : DBConfig) : DBConfig * Error :=
  match connect d with
  | inl h => (set_Connection (Some h) d, None)
  | inr cause => (set_Connection None d, Some cause)
  end.

End superbase.

(** ** [os], [toml.LoadFile]: the files of the host *)

Module os.

Inductive StatError :=
| ErrNotExist
| ErrPermission.

(** What the host answers for a path: the error of [os.Stat] if any, and
    the result of [toml.LoadFile], a tree or the load error. *)
Record Files := {
  Stat : string -> option StatError;
  LoadFile : string -> Tree + string
}.

(** [os.IsNotExist(err)]; the nil error is not one. *)
Definition IsNotExist (err : option StatError) : bool :=
  match err with
  | Some ErrNotExist => true
  | _ => false
  end.

(** The process environment. *)
Abbreviation Environ := (gmap string string).

End os.

(** ** [ls-config] and [ls-fibre] *)

Module config.

(** Modelled from the spec: [config.Getenv] is not part of this repository.
    It gives the value of the environment variable if the variable is set
    and the fixed default otherwise. *)
Definition Getenv (env : os.Environ) (key def : string) : string :=
  match env !! key with
  | Some v => v
  | None => def
  end.

End config.

Module fibre.

(** The web service made by [fibre.NewWebService(app, address)]; the
    governor only hands the two strings over. *)
Record WebService := NewWebService {
  Name : string;
  Address : string
}.

End fibre.

(** ** Outcomes of a Go call *)

Inductive panic :=
| NilDereference        (* invalid memory address or nil pointer dereference *)
| NilMapAssignment      (* assignment to entry in nil map *)
| TypeAssertion.        (* interface conversion: interface {} is not string *)

Inductive outcome (A : Type) :=
| Ret (a : A)           (* the call returns *)
| Panicked (p : panic)  (* a run-time panic leaves the call *)
| Exited (log : string). (* log.Fatalf: the message is logged, os.Exit(1) *)

Arguments Ret {A} a.
Arguments Panicked {A} p.
Arguments Exited {A} log.

(** ** [governor.ManagerService] *)

Abbreviation loc := positive.

Record ManagerService := {
  Config : option Tree;
  DBConfig : option (gmap string loc)
}.

Definition newline : string := String (Ascii.ascii_of_nat 10) "".

(** The value of [fmt.Errorf("Configuration missing '%s' section under [%s]
    heading.\n", property, app)]. *)
Definition PropertyNotFound (app property : string) : string :=
  "Configuration missing '" +:+ property +:+ "' section under ["
    +:+ app +:+ "] heading." +:+ newline.

(** The key [app+"."+property]. *)
Definition dotted (app property : string) : string :=
  app +:+ "." +:+ property.

(** [GetAppProperty]. Calling [Get] on the nil tree dereferences it (the key
    always has two components or more). A value that is there is asserted to
    be a string with the one-result form [.(string)], which panics on any
    other dynamic type. *)
Definition GetAppProperty (ms : ManagerService) (app property : string)
  : outcome (string * Error) :=
  match Config ms with
  | None => Panicked NilDereference
  | Some t =>
      match Get t (dotted app property) with
      | Some node =>
          match node with
          | Leaf (VString s) => Ret (s, None)
          | _ => Panicked TypeAssertion
          end
      | None => Ret ("", Some (PropertyNotFound app property))
      end
  end.

(** The manager together with the descriptors its registry points to. *)
Record State := {
  ms : ManagerService;
  heap : gmap loc superbase.DBConfig
}.

(** A method on the manager: it runs from a state to a state and an
    outcome; after a panic or an exit the state is the one reached so far. *)
Definition M (A : Type) : Type := State -> State * outcome A.

#[global] Instance M_ret : MRet M := fun A a s => (s, Ret a).

#[global] Instance M_bind : MBind M := fun A B k m s =>
  match m s with
  | (s', Ret a) => k a s'
  | (s', Panicked p) => (s', Panicked p)
  | (s', Exited l) => (s', Exited l)
  end.

Definition upd_heap (f : gmap loc superbase.DBConfig -> gmap loc superbase.DBConfig)
  (s : State) : State :=
  {| ms := ms s; heap := f (heap s) |}.

(** [ms.DBConfig[app]]: reading a nil map or an unbound key gives nil. *)
Definition entry (app : string) (s : State) : option loc :=
  match DBConfig (ms s) with
  | Some registry => registry !! app
  | None => None
  end.

(** [if ms.DBConfig[app] == nil { ms.DBConfig[app] = &superbase.DBConfig{} }]:
    the write panics on the nil map; otherwise a fresh descriptor is
    allocated and bound. *)
Definition ensure_entry (app : string) : M unit := fun s =>
  match entry app s with
  | Some _ => (s, Ret tt)
  | None =>
      match DBConfig (ms s) with
      | None => (s, Panicked NilMapAssignment)
      | Some registry =>
          let p := fresh (dom (heap s)) in
          ({| ms := {| Config := Config (ms s);
                       DBConfig := Some (<[app := p]> registry) |};
              heap := <[p := superbase.zero]> (heap s) |}, Ret tt)
      end
  end.

(** [ms.DBConfig[app].F, _ = ms.GetAppProperty(app, property)]: the pointer
    on the left is read first, then the call is made, then the string is
    stored through the pointer; the error is dropped. *)
Definition assign_property (app : string)
  (set_F : string -> superbase.DBConfig -> superbase.DBConfig)
  (property : string) : M unit := fun s =>
  let target := entry app s in
  match GetAppProperty (ms s) app property with
  | Ret (v, _) =>
      match target with
      | Some p => (upd_heap (alter (set_F v) p) s, Ret tt)
      | None => (s, Panicked NilDereference)
      end
  | Panicked why => (s, Panicked why)
  | Exited l => (s, Exited l)
  end.

(** [ms.DBConfig[app].Init()]; what [Init] returns is dropped. *)
Definition init_entry (connect : superbase.Engine) (app : string) : M unit :=
  fun s =>
  match entry app s with
  | Some p => (upd_heap (alter (fun d => (superbase.Init connect d).1) p) s, Ret tt)
  | None => (s, Panicked NilDereference)
  end.

(** [InitDatastore]. *)
Definition InitDatastore (connect : superbase.Engine) (app : string) : M bool :=
  ensure_entry app;;
  let success := true in
  assign_property app superbase.set_Server "dbserver";;
  assign_property app superbase.set_Port "dbport";;
  assign_property app superbase.set_Database "database";;
  assign_property app superbase.set_User "dbuser";;
  assign_property app superbase.set_Password "dbpassword";;
  assign_property app superbase.set_Driver "dbdriver";;
  assign_property app superbase.set_Path "dbpath";;
  init_entry connect app;;
  mret success.

(** [InitManager]: [log.Fatalf] on a file that does not exist; otherwise the
    tree of [toml.LoadFile] is stored with the load error dropped (the tree
    is nil when the load fails) and the registry becomes a new empty map. *)
Definition InitManager (fs : os.Files) (cfgfile : string) : M unit := fun s =>
  if os.IsNotExist (os.Stat fs cfgfile) then
    (s, Exited ("File '" +:+ cfgfile +:+ "' does not exist." +:+ newline))
  else
    ({| ms := {| Config := match os.LoadFile fs cfgfile with
                           | inl t => Some t
                           | inr _ => None
                           end;
                 DBConfig := Some ∅ |};
        heap := heap s |}, Ret tt).

(** [governor.API]; the second field points to the manager the API was made
    from, the model keeps the manager as it is at that time. *)
Record API := NewAPI {
  WebService : fibre.WebService;
  API_ManagerService : ManagerService
}.

(** [CreateAPI]; [ToUpper] is [strings.ToUpper]. *)
Definition CreateAPI (ToUpper : string -> string) (env : os.Environ)
  (m : ManagerService) (app : string) : API :=
  let ua := ToUpper app in
  let address := config.Getenv env (ua +:+ "_HOST") "127.0.0.1" +:+ ":"
                   +:+ config.Getenv env (ua +:+ "_PORT") "7990" in
  let ws := fibre.NewWebService app address in
  NewAPI ws m.

(** [strings.ToUpper] on a string of ASCII bytes: the letters [a] to [z]
    become [A] to [Z]. On other bytes (non-ASCII runes, invalid UTF-8) it is
    not [strings.ToUpper]; it is used on ASCII names only. *)
Definition upper_ascii (c : ascii) : ascii :=
  let n := Ascii.nat_of_ascii c in
  if (97 <=? n)%nat && (n <=? 122)%nat then Ascii.ascii_of_nat (n - 32) else c.

Fixpoint ToUpperASCII (s : string) : string :=
  match s with
  | EmptyString => EmptyString
  | String c rest => String (upper_ascii c) (ToUpperASCII rest)
  end.

(** ** Notions of the specification *)

(** The table that the header [[app]] of the configuration source denotes:
    the one reached from the root along the dot-separated pieces of [app]
    (for a name without a dot, the top-level table bound to [app]). *)
Definition section_of (t : Tree) (app : string) : option Tree :=
  match GetPath (strings.Split app) t with
  | Some (Table sec) => Some sec
  | _ => None
  end.

(** Section [[app]] of [t] contains [property = v], [v] a string. *)
Definition section_has (t : Tree) (app property v : string) : Prop :=
  exists sec, section_of t app = Some sec /\
              GetPath (strings.Split property) sec = Some (Leaf (VString v)).

(** The dotted path [app.property] is absent from [t]. *)
Definition path_absent (t : Tree) (app property : string) : Prop :=
  Get t (dotted app property) = None.

(** The seven properties [InitDatastore] reads, in the order of the source,
    each with the field of the descriptor it is stored in. *)
Definition db_fields : list (string * (superbase.DBConfig -> string)) :=
  [ ("dbserver", superbase.Server); ("dbport", superbase.Port);
    ("database", superbase.Database); ("dbuser", superbase.User);
    ("dbpassword", superbase.Password); ("dbdriver", superbase.Driver);
    ("dbpath", superbase.Path) ].

(** The seven fields of a descriptor, in that order. *)
Definition fields (d : superbase.DBConfig) : list string :=
  map (fun kf => kf.2 d) db_fields.

(** The string configured for [app.property], the empty string if there is
    none. *)
Definition field_value (t : Tree) (app property : string) : string :=
  match Get t (dotted app property) with
  | Some (Leaf (VString s)) => s
  | _ => ""
  end.

(** [app.property] is absent or bound to a string: the configuration file
    format of the governor has string-valued keys only. *)
Definition readable (t : Tree) (app property : string) : bool :=
  match Get t (dotted app property) with
  | Some (Leaf (VString _)) | None => true
  | Some _ => false
  end.

(** Each of the seven properties of [app] is absent or a string. *)
Definition configurable (t : Tree) (app : string) : bool :=
  forallb (fun kf => readable t app kf.1) db_fields.

(** The descriptor registered for [app], if any: [*ms.DBConfig[app]]. *)
Definition descriptor (app : string) (s : State) : option superbase.DBConfig :=
  match entry app s with
  | Some p => heap s !! p
  | None => None
  end.

(** The states the package itself builds: the registry is a map, every
    pointer in it is allocated, and no two names share a descriptor
    ([ensure_entry] allocates one for each name). *)
Definition wf (s : State) : Prop :=
  exists registry,
    DBConfig (ms s) = Some registry /\
    (forall a p, registry !! a = Some p -> is_Some (heap s !! p)) /\
    (forall a b p, registry !! a = Some p -> registry !! b = Some p -> a = b).

(** The manager before [InitManager]: [&governor.ManagerService{}]. *)
Definition unconfigured : State :=
  {| ms := {| Config := None; DBConfig := None |}; heap := ∅ |}.

(** The configuration of the manager is replaced by [c]. *)
Definition with_Config (c : option Tree) (s : State) : State :=
  {| ms := {| Config := c; DBConfig := DBConfig (ms s) |}; heap := heap s |}.

(** The seven assignments of [InitDatastore] applied to a descriptor. *)
Definition assemble (t : Tree) (app : string) (d : superbase.DBConfig)
  : superbase.DBConfig :=
  superbase.set_Path (field_value t app "dbpath")
    (superbase.set_Driver (field_value t app "dbdriver")
      (superbase.set_Password (field_value t app "dbpassword")
        (superbase.set_User (field_value t app "dbuser")
          (superbase.set_Database (field_value t app "database")
            (superbase.set_Port (field_value t app "dbport")
              (superbase.set_Server (field_value t app "dbserver") d)))))).

(** ** Configurations, hosts and engines used as concrete inputs *)

(** The manager after [InitManager] has loaded [t]. *)
Definition configured (t : Tree) : State :=
  {| ms := {| Config := Some t; DBConfig := Some ∅ |}; heap := ∅ |}.

(** [[shop]] with [dbdriver = "sqlite3"] and [dbpath = "shop.db"]. *)
Definition shop_section : Tree :=
  <["dbdriver" := Leaf (VString "sqlite3")]>
    (<["dbpath" := Leaf (VString "shop.db")]> ∅).

Definition shop_tree : Tree := <["shop" := Table shop_section]> ∅.

(** [[shop]] with [dbdriver = "sqlite3"] and [dbserver = ""]. *)
Definition empty_server_tree : Tree :=
  <["shop" := Table (<["dbdriver" := Leaf (VString "sqlite3")]>
                       (<["dbserver" := Leaf (VString "")]> ∅))]> ∅.

(** [[shop]] with [dbdriver = "sqlite3"] and no [dbserver]. *)
Definition absent_server_tree : Tree :=
  <["shop" := Table (<["dbdriver" := Leaf (VString "sqlite3")]> ∅)]> ∅.

(** [[shop]] with [dbport = 5432], an integer. *)
Definition port_tree : Tree :=
  <["shop" := Table (<["dbport" := Leaf (VInteger 5432)]> ∅)]> ∅.

(** [[shop]] with [dbdriver = "oracle"]. *)
Definition oracle_tree : Tree :=
  <["shop" := Table (<["dbdriver" := Leaf (VString "oracle")]> ∅)]> ∅.

(** [[billing]] with [dbdriver = "sqlite3"] and [dbserver = "db1"]. *)
Definition billing_tree : Tree :=
  <["billing" := Table (<["dbdriver" := Leaf (VString "sqlite3")]>
                          (<["dbserver" := Leaf (VString "db1")]> ∅))]> ∅.

(** An engine that opens sqlite3 descriptors and refuses the others. *)
Definition sqlite_engine : superbase.Engine := fun d =>
  if decide (superbase.Driver d = "sqlite3") then inl (superbase.Opened 1)
  else inr "unsupported driver".

(** A host where [config.toml] loads as [shop_tree], [broken.toml] exists
    but does not parse, and no other file exists. *)
Definition host_files : os.Files :=
  {| os.Stat path :=
       if decide (path = "config.toml") then None
       else if decide (path = "broken.toml") then None
       else Some os.ErrNotExist;
     os.LoadFile path :=
       if decide (path = "config.toml") then inl shop_tree
       else if decide (path = "broken.toml")
            then inr "(1, 1): unexpected token"
            else inr "no such file or directory" |}.

(** ** Notions used in the proofs *)

(** A property of the state that [m] keeps whatever its outcome is. *)
Definition stable {A} (P : State -> Prop) (m : M A) : Prop :=
  forall s, P s -> P (m s).1.

(** The state after [ensure_entry] on a manager whose registry is a map. *)
Definition ensured (app : string) (s : State) : State := (ensure_entry app s).1.

(** [s'] differs from [s1] at most in the descriptor at [p]. *)
Definition touches_only (p : loc) (s1 s' : State) : Prop :=
  ms s' = ms s1 /\ exists F, heap s' = alter F p (heap s1).

(** The error [GetAppProperty] returns for a readable property. *)
Definition lookup_error (t : Tree) (app property : string) : Error :=
  match Get t (dotted app property) with
  | None => Some (PropertyNotFound app property)
  | Some _ => None
  end.

(** The seven configured strings of [app], in the order of [fields]. *)
Definition config_fields (t : Tree) (app : string) : list string :=
  map (fun kf => field_value t app kf.1) db_fields.

(** The only value [InitDatastore] ever returns. *)
Definition returns_only {A} (a : A) (m : M A) : Prop :=
  forall s b, (m s).2 = Ret b -> b = a.

Create HintDb stable.

(** ** The assignments as a list, and the caller shown in the README *)

(** The seven assignments of [InitDatastore] in the order of the source:
    the property read and the field written. *)
Definition db_setters
  : list (string * (string -> superbase.DBConfig -> superbase.DBConfig)) :=
  [ ("dbserver", superbase.set_Server); ("dbport", superbase.set_Port);
    ("database", superbase.set_Database); ("dbuser", superbase.set_User);
    ("dbpassword", superbase.set_Password); ("dbdriver", superbase.set_Driver);
    ("dbpath", superbase.set_Path) ].

(** The assignments of [steps] run one after the other. *)
Fixpoint assign_all (app : string)
  (steps : list (string * (string -> superbase.DBConfig -> superbase.DBConfig)))
  : M unit :=
  match steps with
  | [] => mret tt
  | kf :: rest => assign_property app kf.2 kf.1;; assign_all app rest
  end.

(** The strings configured for [steps] stored into [d], first step first. *)
Definition apply_setters (t : Tree) (app : string)
  (steps : list (string * (string -> superbase.DBConfig -> superbase.DBConfig)))
  (d : superbase.DBConfig) : superbase.DBConfig :=
  foldl (fun d kf => kf.2 (field_value t app kf.1) d) d steps.

(** The steps before the first one whose property is bound to something
    that is not a string. *)
Fixpoint readable_prefix (t : Tree) (app : string)
  (steps : list (string * (string -> superbase.DBConfig -> superbase.DBConfig)))
  : list (string * (string -> superbase.DBConfig -> superbase.DBConfig)) :=
  match steps with
  | [] => []
  | kf :: rest =>
      if readable t app kf.1 then kf :: readable_prefix t app rest else []
  end.

(** The descriptor [InitDatastore] starts from: the one registered for
    [app], or the zero descriptor it allocates. *)
Definition previous (app : string) (s : State) : superbase.DBConfig :=
  default superbase.zero (descriptor app s).

(** The listening address of the web service of an API. *)
Definition address (api : API) : string := fibre.Address (WebService api).

(** [Migrate(gapi, app)] of the README ([pkg/model/migrations.go]), the
    caller that reads the registry. [gapi.ManagerService] points to the
    manager of the state, so the registry is read from the state. The
    effect of [AutoMigrate] is inside the storage engine; [Migrate] returns
    nil after it. A pointer without a descriptor cannot occur in Go and is
    an invalid dereference here. *)
Definition Migrate (gapi : option API) (app : string) (s : State)
  : outcome Error :=
  match gapi with
  | None => Ret (Some "Migrate: Governor API is not initialized.")
  | Some _ =>
      if decide (app = "") then Ret (Some "Migrate: App name cannot be empty.")
      else
        match entry app s with
        | None =>
            Ret (Some ("Migrate: Database configuration for '" +:+ app
                         +:+ "' does not exist."))
        | Some p =>
            match heap s !! p with
            | None => Panicked NilDereference
            | Some dbc =>
                match superbase.Connection dbc with
                | None =>
                    Ret (Some ("Migrate: Database connection for '" +:+ app
                                 +:+ "' does not exist."))
                | Some _ => Ret None
                end
            end
        end
  end.

(** [[shop]] with [dbserver = "db1"], [dbport = 5432] (an integer) and
    [dbdriver = "sqlite3"]. *)
Definition mixed_tree : Tree :=
  <["shop" := Table (<["dbserver" := Leaf (VString "db1")]>
                       (<["dbport" := Leaf (VInteger 5432)]>
                          (<["dbdriver" := Leaf (VString "sqlite3")]> ∅)))]> ∅.

(** A state whose [shop] descriptor was built by hand before. *)
Definition stale_state : State :=
  {| ms := {| Config := Some mixed_tree;
              DBConfig := Some (<["shop" := 1%positive]> ∅) |};
     heap := <[1%positive :=
                 {| superbase.Server := "old"; superbase.Port := "1";
                    superbase.Database := "olddb"; superbase.User := "u";
                    superbase.Password := "pw"; superbase.Driver := "mysql";
                    superbase.Path := "/old";
                    superbase.Connection := Some (superbase.Opened 7) |}]> ∅ |}.

(** The two errors of [Migrate] about the registry. *)
Definition no_configuration (app : string) : string :=
  "Migrate: Database configuration for '" +:+ app +:+ "' does not exist.".

Definition no_connection (app : string) : string :=
  "Migrate: Database connection for '" +:+ app +:+ "' does not exist.".

(** A tree whose only top-level key is the quoted name [eu.shop]. *)
Definition quoted_tree : Tree :=
  <["eu.shop" := Table (<["dbdriver" := Leaf (VString "sqlite3")]> ∅)]> ∅.

(** ** Names that a message or an environment can hold *)

(** No byte of the string is an apostrophe. *)
Fixpoint no_quote (s : string) : bool :=
  match s with
  | EmptyString => true
  | String c rest => negb (Ascii.eqb c "'"%char) && no_quote rest
  end.

(** No byte of the string is [=] or NUL. *)
Fixpoint no_equals_nul (s : string) : bool :=
  match s with
  | EmptyString => true
  | String c rest =>
      negb (Ascii.eqb c "="%char) && negb (Ascii.eqb c Ascii.zero)
        && no_equals_nul rest
  end.

(** A name that a variable of the process environment can have: not empty,
    without [=] (an entry [name=value] is split at its first [=]) and
    without NUL. *)
Definition variable_name (s : string) : bool :=
  negb (String.eqb s "") && no_equals_nul s.

(** A map that is the environment of some process: every name in it is a
    variable name and no value has a NUL. *)
Definition process_environment (env : os.Environ) : Prop :=
  forall name value, env !! name = Some value ->
    variable_name name = true /\
    forall c, In c (list_ascii_of_string value) -> c <> Ascii.zero.

(** [[shop]] with [dbserver = "db1"], [database = "olddb"] and
    [dbdriver = "mysql"]. *)
Definition old_tree : Tree :=
  <["shop" := Table (<["dbserver" := Leaf (VString "db1")]>
                       (<["database" := Leaf (VString "olddb")]>
                          (<["dbdriver" := Leaf (VString "mysql")]> ∅)))]> ∅.

(** [[shop]] with [dbserver = 5] (an integer) and [dbdriver = "sqlite3"]. *)
Definition new_tree : Tree :=
  <["shop" := Table (<["dbserver" := Leaf (VInteger 5)]>
                       (<["dbdriver" := Leaf (VString "sqlite3")]> ∅))]> ∅.

(** * Properties *)

(** ** Dotted keys *)

Lemma Split_nonempty s : strings.Split s <> [].
Proof.
  destruct s as [|c s]; simpl; [done|].
  destruct (Ascii.eqb c "."); [done|].
  by destruct (strings.Split s).
Qed.

Lemma Split_dotted a b :
  strings.Split (dotted a b) = strings.Split a ++ strings.Split b.
Proof.
  unfold dotted. induction a as [|c a IH]; simpl; [done|].
  destruct (Ascii.eqb c "."); [by rewrite IH|].
  rewrite IH. pose proof (Split_nonempty a) as Hne.
  by destruct (strings.Split a).
Qed.

Lemma Split_bare s : strings.bare s = true -> strings.Split s = [s].
Proof.
  induction s as [|c s IH]; simpl; [done|].
  destruct (Ascii.eqb c "."); simpl; [done|].
  intros Hs. by rewrite (IH Hs).
Qed.

Lemma dotted_nonempty a b : dotted a b <> "".
Proof. unfold dotted. by destruct a. Qed.

Lemma Get_dotted t a b :
  Get t (dotted a b) = GetPath (strings.Split a ++ strings.Split b) t.
Proof.
  unfold Get. rewrite decide_False by apply dotted_nonempty.
  by rewrite Split_dotted.
Qed.

(** Walking a path that ends in a table and going on from there is walking
    the whole path. *)
Lemma GetPath_app p q t sec :
  GetPath p t = Some (Table sec) -> q <> [] ->
  GetPath (p ++ q) t = GetPath q sec.
Proof.
  intros Hp Hq. revert t Hp.
  induction p as [|k p IH]; intros t Hp.
  - simpl in Hp. by simplify_eq.
  - destruct p as [|k' p].
    + simpl in Hp. destruct q as [|k' q]; [done|].
      simpl. by rewrite Hp.
    + change (GetPath ((k :: k' :: p) ++ q) t)
        with (match t !! k with
              | Some (Table sub) => GetPath ((k' :: p) ++ q) sub
              | Some (TableArray tables) =>
                  match last tables with
                  | Some sub => GetPath ((k' :: p) ++ q) sub
                  | None => None
                  end
              | _ => None
              end).
      change (GetPath (k :: k' :: p) t)
        with (match t !! k with
              | Some (Table sub) => GetPath (k' :: p) sub
              | Some (TableArray tables) =>
                  match last tables with
                  | Some sub => GetPath (k' :: p) sub
                  | None => None
                  end
              | _ => None
              end) in Hp.
      destruct (t !! k) as [[v|sub|tables]|]; try done.
      * by apply IH.
      * destruct (last tables); [by apply IH|done].
Qed.

Lemma section_has_Get t app property v :
  section_has t app property v ->
  Get t (dotted app property) = Some (Leaf (VString v)).
Proof.
  intros (sec & Hsec & Hv). rewrite Get_dotted.
  unfold section_of in Hsec.
  destruct (GetPath (strings.Split app) t) as [[?|sec'|?]|] eqn:Hp; simplify_eq.
  rewrite (GetPath_app _ _ _ _ Hp (Split_nonempty property)). done.
Qed.

(** For names without a dot the section is the top-level table of that
    name and the property is a key of it. *)
Lemma section_has_bare t app property v :
  strings.bare app = true -> strings.bare property = true ->
  section_has t app property v <->
  exists sec, t !! app = Some (Table sec) /\
              sec !! property = Some (Leaf (VString v)).
Proof.
  intros Ha Hp. unfold section_has, section_of.
  rewrite (Split_bare _ Ha), (Split_bare _ Hp). simpl.
  split.
  - intros (sec & Hsec & Hv). exists sec. split; [|done].
    destruct (t !! app) as [[?|?|?]|]; by simplify_eq.
  - intros (sec & Hsec & Hv). exists sec. by rewrite Hsec.
Qed.

(** ** [GetAppProperty] *)

Lemma append_same_length_inj s1 s2 x y :
  String.length x = String.length y ->
  s1 +:+ x = s2 +:+ y -> s1 = s2 /\ x = y.
Proof.
  intros Hlen. revert s2.
  assert (forall s z, String.length (s +:+ z)
                      = (String.length s + String.length z)%nat) as Happ.
  { intros s z. induction s as [|c s IH]; [done|].
    change (S (String.length (s +:+ z))
            = S (String.length s + String.length z)). by rewrite IH. }
  induction s1 as [|c s1 IH]; intros [|c2 s2] Heq.
  - done.
  - exfalso. apply (f_equal String.length) in Heq.
    change (String c2 s2 +:+ y) with (String c2 (s2 +:+ y)) in Heq.
    change (String.length x = S (String.length (s2 +:+ y))) in Heq.
    rewrite Happ in Heq. lia.
  - exfalso. apply (f_equal String.length) in Heq.
    change (S (String.length (s1 +:+ x)) = String.length y) in Heq.
    rewrite Happ in Heq. lia.
  - change (String c (s1 +:+ x) = String c2 (s2 +:+ y)) in Heq.
    injection Heq as -> Heq. destruct (IH _ Heq) as [-> ->]. done.
Qed.

(** Two strings without an apostrophe, each followed by an apostrophe: the
    first apostrophe tells where they end. *)
Lemma first_quote_inj k1 k2 x y :
  no_quote k1 = true -> no_quote k2 = true ->
  k1 +:+ String "'" x = k2 +:+ String "'" y -> k1 = k2 /\ x = y.
Proof.
  revert k2. induction k1 as [|c k1 IH]; intros [|c2 k2] H1 H2 Heq.
  - change (String "'" x = String "'" y) in Heq. by simplify_eq.
  - change (String "'" x = String c2 (k2 +:+ String "'" y)) in Heq.
    injection Heq as <- _. by simpl in H2.
  - change (String c (k1 +:+ String "'" x) = String "'" y) in Heq.
    injection Heq as -> _. by simpl in H1.
  - change (String c (k1 +:+ String "'" x)
            = String c2 (k2 +:+ String "'" y)) in Heq.
    injection Heq as -> Heq. simpl in H1, H2.
    apply andb_prop in H1 as [_ H1]. apply andb_prop in H2 as [_ H2].
    destruct (IH _ H1 H2 Heq) as [-> ->]. done.
Qed.

(** The error of [GetAppProperty] tells the application and the property
    apart when the property names have no apostrophe. *)
Lemma PropertyNotFound_inj app1 property1 app2 property2 :
  no_quote property1 = true -> no_quote property2 = true ->
  PropertyNotFound app1 property1 = PropertyNotFound app2 property2 ->
  app1 = app2 /\ property1 = property2.
Proof.
  intros H1 H2 Heq. unfold PropertyNotFound in Heq.
  apply (inj (String.append "Configuration missing '")) in Heq.
  destruct (first_quote_inj property1 property2
              (" section under [" +:+ app1 +:+ "] heading." +:+ newline)
              (" section under [" +:+ app2 +:+ "] heading." +:+ newline)
              H1 H2 Heq) as [-> Hrest].
  apply (inj (String.append " section under [")) in Hrest.
  by destruct (append_same_length_inj app1 app2
                 ("] heading." +:+ newline) ("] heading." +:+ newline)
                 eq_refl Hrest) as [-> _].
Qed.

Lemma GetAppProperty_loaded m t app property :
  Config m = Some t ->
  GetAppProperty m app property =
    match Get t (dotted app property) with
    | Some (Leaf (VString s)) => Ret (s, None)
    | Some _ => Panicked TypeAssertion
    | None => Ret ("", Some (PropertyNotFound app property))
    end.
Proof.
  intros Hc. unfold GetAppProperty. rewrite Hc.
  by destruct (Get t (dotted app property)) as [[[]| |]|].
Qed.

(** C1: on a loaded configuration, [GetAppProperty] returns [v] with the nil
    error when section [app] contains [property = v]; it returns the
    not-found error exactly when the dotted path is absent, and then with
    the empty string; a result with the nil error is always the string
    found at the path, never an empty string standing for an absent value.
    The error carries both names: its text is the message of the source
    with [property] and [app] written into it, and for property names
    without an apostrophe the error of one pair of names is never the error
    of another pair. *)
Theorem C1_GetAppProperty_resolves m t app property :
  Config m = Some t ->
  (forall v, section_has t app property v ->
             GetAppProperty m app property = Ret (v, None)) /\
  (path_absent t app property <->
   exists s, GetAppProperty m app property =
               Ret (s, Some (PropertyNotFound app property))) /\
  (path_absent t app property ->
   GetAppProperty m app property =
     Ret ("", Some ("Configuration missing '" +:+ property
                      +:+ "' section under [" +:+ app +:+ "] heading."
                      +:+ newline))) /\
  (forall s, GetAppProperty m app property = Ret (s, None) ->
             Get t (dotted app property) = Some (Leaf (VString s)) /\
             ~ path_absent t app property) /\
  (forall app' property',
     no_quote property = true -> no_quote property' = true ->
     PropertyNotFound app' property' = PropertyNotFound app property ->
     app' = app /\ property' = property).
Proof.
  intros Hc. rewrite (GetAppProperty_loaded _ _ _ _ Hc). unfold path_absent.
  split; [|split; [|split; [|split]]].
  - intros v Hv. by rewrite (section_has_Get _ _ _ _ Hv).
  - split.
    + intros ->. by eexists.
    + intros [s Hs].
      destruct (Get t (dotted app property)) as [[[]| |]|]; by simplify_eq.
  - by intros ->.
  - intros s Hs.
    destruct (Get t (dotted app property)) as [[[]| |]|]; by simplify_eq.
  - intros app' property' Hq Hq' Heq.
    by apply PropertyNotFound_inj.
Qed.

(** ** The monad *)

Lemma bind_Ret {A B} (m : M A) (k : A -> M B) s s' a :
  m s = (s', Ret a) -> (m ≫= k) s = k a s'.
Proof. intros Hm. unfold mbind, M_bind. by rewrite Hm. Qed.

Lemma stable_ret {A} P (a : A) : stable P (mret a).
Proof. by intros s Hs. Qed.

Lemma stable_bind {A B} P (m : M A) (k : A -> M B) :
  stable P m -> (forall a, stable P (k a)) -> stable P (m ≫= k).
Proof.
  intros Hm Hk s Hs. specialize (Hm s Hs).
  unfold mbind, M_bind. destruct (m s) as [s' [a| |]]; simpl in *; try done.
  by apply Hk.
Qed.

#[global] Hint Resolve stable_ret stable_bind : stable.

(** ** [ensure_entry] *)

Lemma ensure_entry_Ret app s registry :
  DBConfig (ms s) = Some registry ->
  ensure_entry app s = (ensured app s, Ret tt).
Proof.
  intros Hr. unfold ensured, ensure_entry, entry. rewrite Hr.
  by destruct (registry !! app).
Qed.

Lemma ensured_Config app s : Config (ms (ensured app s)) = Config (ms s).
Proof.
  unfold ensured, ensure_entry.
  destruct (entry app s); [done|]. by destruct (DBConfig (ms s)).
Qed.

Lemma ensured_entry app s registry :
  DBConfig (ms s) = Some registry ->
  exists p, entry app (ensured app s) = Some p.
Proof.
  intros Hr. unfold ensured, ensure_entry.
  destruct (entry app s) as [p|] eqn:He; simpl; [by eauto|].
  rewrite Hr. simpl. unfold entry. simpl.
  rewrite lookup_insert_eq. by eauto.
Qed.

Lemma ensured_wf app s : wf s -> wf (ensured app s).
Proof.
  intros (registry & Hr & Halloc & Hinj).
  unfold ensured, ensure_entry, entry. rewrite Hr.
  destruct (registry !! app) as [p|] eqn:Ha; simpl.
  { exists registry. by rewrite Hr. }
  pose proof (is_fresh (dom (heap s))) as Hfresh.
  rewrite not_elem_of_dom in Hfresh.
  eexists. split; [done|]. simpl. split.
  - intros a p. rewrite lookup_insert. case_decide; simplify_eq.
    + intros ?; simplify_eq. rewrite lookup_insert_eq. by eauto.
    + intros Hp. destruct (Halloc _ _ Hp) as [d Hd].
      rewrite lookup_insert_ne; [by eauto|]. congruence.
  - intros a b p. rewrite !lookup_insert.
    repeat case_decide; simplify_eq; try done.
    + intros ? Hb; simplify_eq. destruct (Halloc _ _ Hb) as [d Hd]. congruence.
    + intros Hb ?; simplify_eq. destruct (Halloc _ _ Hb) as [d Hd]. congruence.
    + apply Hinj.
Qed.

(** What [ensure_entry] leaves as it was: the descriptor of every other
    name. *)
Lemma ensured_frame app other s :
  wf s -> other <> app ->
  entry other (ensured app s) = entry other s /\
  descriptor other (ensured app s) = descriptor other s.
Proof.
  intros (registry & Hr & Halloc & Hinj) Hne.
  unfold descriptor, ensured, ensure_entry, entry. rewrite Hr.
  destruct (registry !! app) as [p|] eqn:Ha; simpl; [by rewrite Hr|].
  rewrite lookup_insert_ne by done. split; [done|].
  destruct (registry !! other) as [q|] eqn:Ho; [|done].
  destruct (Halloc _ _ Ho) as [d Hd].
  pose proof (is_fresh (dom (heap s))) as Hfresh.
  rewrite not_elem_of_dom in Hfresh.
  rewrite lookup_insert_ne; [done|]. congruence.
Qed.

(** ** The assignments of [InitDatastore] *)

Lemma touches_only_refl p s : touches_only p s s.
Proof. split; [done|]. exists id. by rewrite alter_id. Qed.

Lemma touches_only_entry p s1 s' app :
  touches_only p s1 s' -> entry app s' = entry app s1.
Proof. intros [Hms _]. unfold entry. by rewrite Hms. Qed.

Lemma assign_property_stable app set_F property p s1 :
  entry app s1 = Some p ->
  stable (touches_only p s1) (assign_property app set_F property).
Proof.
  intros He s' Hs'. pose proof (touches_only_entry _ _ _ app Hs') as He'.
  destruct Hs' as [Hms [F HF]]. unfold assign_property.
  rewrite He', He.
  destruct (GetAppProperty (ms s') app property) as [[v e]| |]; simpl;
    try by (split; eauto).
  split; [done|]. exists (set_F v ∘ F). simpl. rewrite HF. apply alter_alter_eq.
Qed.

Lemma init_entry_stable connect app p s1 :
  entry app s1 = Some p ->
  stable (touches_only p s1) (init_entry connect app).
Proof.
  intros He s' Hs'. pose proof (touches_only_entry _ _ _ app Hs') as He'.
  destruct Hs' as [Hms [F HF]]. unfold init_entry. rewrite He', He. simpl.
  split; [done|]. eexists (_ ∘ F). simpl. rewrite HF. apply alter_alter_eq.
Qed.

#[global] Hint Resolve assign_property_stable init_entry_stable : stable.

(** Whatever its outcome, [InitDatastore] changes the state [ensure_entry]
    leaves at most in the descriptor of [app]. *)
Lemma InitDatastore_touches connect app s registry :
  DBConfig (ms s) = Some registry ->
  exists p, entry app (ensured app s) = Some p /\
            touches_only p (ensured app s) (InitDatastore connect app s).1.
Proof.
  intros Hr. destruct (ensured_entry app s _ Hr) as [p Hp].
  exists p. split; [done|]. unfold InitDatastore.
  rewrite (bind_Ret _ _ _ _ _ (ensure_entry_Ret app s _ Hr)).
  cut (stable (touches_only p (ensured app s))
         (assign_property app superbase.set_Server "dbserver";;
          assign_property app superbase.set_Port "dbport";;
          assign_property app superbase.set_Database "database";;
          assign_property app superbase.set_User "dbuser";;
          assign_property app superbase.set_Password "dbpassword";;
          assign_property app superbase.set_Driver "dbdriver";;
          assign_property app superbase.set_Path "dbpath";;
          init_entry connect app;; mret true)).
  { intros Hst. apply Hst, touches_only_refl. }
  repeat (apply stable_bind; [by eauto with stable|intros _]).
  apply stable_ret.
Qed.

Lemma GetAppProperty_readable m t app property :
  Config m = Some t -> readable t app property = true ->
  GetAppProperty m app property =
    Ret (field_value t app property, lookup_error t app property).
Proof.
  intros Hc Hread. rewrite (GetAppProperty_loaded _ _ _ _ Hc).
  unfold readable, field_value, lookup_error in *.
  by destruct (Get t (dotted app property)) as [[[]| |]|].
Qed.

Lemma assign_property_Ret app set_F property s t p :
  Config (ms s) = Some t -> readable t app property = true ->
  entry app s = Some p ->
  assign_property app set_F property s =
    (upd_heap (alter (set_F (field_value t app property)) p) s, Ret tt).
Proof.
  intros Hc Hread He. unfold assign_property.
  by rewrite (GetAppProperty_readable _ _ _ _ Hc Hread), He.
Qed.

(** [InitDatastore] on a loaded configuration whose seven properties are
    readable: the entry is ensured, the seven strings are stored, the
    connection is asked for, and [true] is returned. *)
Lemma InitDatastore_run connect app s t registry p :
  Config (ms s) = Some t -> DBConfig (ms s) = Some registry ->
  configurable t app = true ->
  entry app (ensured app s) = Some p ->
  InitDatastore connect app s =
    (upd_heap (alter (fun d => (superbase.Init connect (assemble t app d)).1) p)
       (ensured app s), Ret true).
Proof.
  intros Hc Hr Hconf Hp. unfold InitDatastore.
  rewrite (bind_Ret _ _ _ _ _ (ensure_entry_Ret app s _ Hr)).
  rewrite <- (ensured_Config app s) in Hc.
  unfold configurable in Hconf. simpl in Hconf.
  repeat (apply andb_prop in Hconf as [? Hconf]).
  repeat (erewrite bind_Ret;
          [|by apply (assign_property_Ret _ _ _ _ t p)]).
  unfold mbind, M_bind, init_entry, mret, M_ret, upd_heap, entry in *. simpl.
  destruct (DBConfig (ms (ensured app s))) as [reg1|] eqn:Hreg1; [|done].
  rewrite Hp. f_equal. f_equal.
  by rewrite !alter_alter_eq.
Qed.

(** ** Well-formed states *)

Lemma wf_with_Config c s : wf s -> wf (with_Config c s).
Proof. intros (registry & Hr & Halloc & Hinj). by exists registry. Qed.

Lemma InitManager_wf fs cfgfile s :
  os.IsNotExist (os.Stat fs cfgfile) = false -> wf (InitManager fs cfgfile s).1.
Proof.
  intros Hstat. unfold InitManager. rewrite Hstat. simpl.
  exists ∅. split; [done|]. split; intros *; by rewrite lookup_empty.
Qed.

Lemma touches_only_wf p s1 s' : touches_only p s1 s' -> wf s1 -> wf s'.
Proof.
  intros [Hms [F HF]] (registry & Hr & Halloc & Hinj).
  exists registry. rewrite Hms, HF. split; [done|]. split; [|done].
  intros a q Hq. apply lookup_alter_is_Some. by eapply Halloc.
Qed.

Lemma InitDatastore_wf connect app s :
  wf s -> wf (InitDatastore connect app s).1.
Proof.
  intros Hwf. pose proof Hwf as (registry & Hr & _).
  destruct (InitDatastore_touches connect app s _ Hr) as (p & _ & Ht).
  eapply touches_only_wf; [done|]. by apply ensured_wf.
Qed.

(** ** The descriptor [InitDatastore] leaves *)

Lemma fields_Init_assemble connect t app d :
  fields (superbase.Init connect (assemble t app d)).1 = config_fields t app.
Proof. unfold superbase.Init. by destruct (connect _). Qed.

Lemma InitDatastore_descriptor connect app s t :
  Config (ms s) = Some t -> wf s -> configurable t app = true ->
  exists s' d0,
    InitDatastore connect app s = (s', Ret true) /\
    descriptor app (ensured app s) = Some d0 /\
    descriptor app s' = Some (superbase.Init connect (assemble t app d0)).1 /\
    Config (ms s') = Some t.
Proof.
  intros Hc Hwf Hconf. pose proof Hwf as (registry & Hr & _).
  destruct (ensured_entry app s _ Hr) as [p Hp].
  destruct (ensured_wf app s Hwf) as (reg1 & Hr1 & Halloc1 & _).
  assert (is_Some (heap (ensured app s) !! p)) as [d0 Hd0].
  { unfold entry in Hp. rewrite Hr1 in Hp. by eapply Halloc1. }
  eexists _, d0. split; [by eapply InitDatastore_run|].
  unfold descriptor. split; [by rewrite Hp|]. split.
  - unfold entry in *. simpl. rewrite Hr1 in *. rewrite Hp. simpl.
    by rewrite lookup_alter_eq, Hd0.
  - simpl. by rewrite ensured_Config.
Qed.

Lemma field_value_present t app property v :
  section_has t app property v -> field_value t app property = v.
Proof. intros Hv. unfold field_value. by rewrite (section_has_Get _ _ _ _ Hv). Qed.

Lemma field_value_absent t app property :
  path_absent t app property -> field_value t app property = "".
Proof. unfold path_absent, field_value. by intros ->. Qed.

(** On a loaded configuration whose seven properties are strings where
    they are present, [InitDatastore] returns and leaves for [app] a
    descriptor in which each of the seven fields holds the string configured
    for its property ([dbserver], [dbport], [database], [dbuser],
    [dbpassword], [dbdriver], [dbpath]) when the section has it and the empty
    string when the path is absent; absent properties do not stop the
    build. *)
Lemma InitDatastore_builds_readable connect app s t :
  Config (ms s) = Some t -> wf s -> configurable t app = true ->
  exists s' d,
    InitDatastore connect app s = (s', Ret true) /\
    descriptor app s' = Some d /\
    fields d = config_fields t app /\
    Forall (fun kf =>
              (forall v, section_has t app kf.1 v -> kf.2 d = v) /\
              (path_absent t app kf.1 -> kf.2 d = ""))
           db_fields.
Proof.
  intros Hc Hwf Hconf.
  destruct (InitDatastore_descriptor connect app s t Hc Hwf Hconf)
    as (s' & d0 & Hrun & _ & Hd & _).
  eexists s', _. split; [done|]. split; [done|].
  pose proof (fields_Init_assemble connect t app d0) as Hf.
  split; [done|].
  unfold fields, config_fields in Hf.
  apply Forall_forall. intros [k proj] Hin. simpl.
  assert (proj (superbase.Init connect (assemble t app d0)).1
          = field_value t app k) as ->.
  { unfold db_fields in Hin, Hf. simpl in Hf.
    repeat (apply elem_of_cons in Hin as [Hin|Hin];
            [by simplify_eq; simplify_eq/=|]).
    by apply elem_of_nil in Hin. }
  split; [apply field_value_present|apply field_value_absent].
Qed.

(** While the seven properties are strings where they are present:
    registering [app] twice under an unchanged configuration leaves
    descriptors with the same seven fields, and registering it again after
    the configuration has been replaced leaves a descriptor whose seven
    fields are the strings of the new configuration alone (the empty string
    where the new configuration has none), whatever the descriptor held. *)
Lemma InitDatastore_overwrites_readable connect app s t t' :
  Config (ms s) = Some t -> wf s ->
  configurable t app = true -> configurable t' app = true ->
  let s1 := (InitDatastore connect app s).1 in
  let s2 := (InitDatastore connect app s1).1 in
  let s3 := (InitDatastore connect app (with_Config (Some t') s2)).1 in
  exists d1 d2 d3,
    descriptor app s1 = Some d1 /\
    descriptor app s2 = Some d2 /\
    descriptor app s3 = Some d3 /\
    fields d1 = config_fields t app /\
    fields d2 = fields d1 /\
    fields d3 = config_fields t' app.
Proof.
  intros Hc Hwf Hconf Hconf' s1 s2 s3.
  destruct (InitDatastore_descriptor connect app s t Hc Hwf Hconf)
    as (s1' & a0 & Hrun1 & _ & Hd1 & Hc1).
  assert (s1 = s1') as Hs1 by (unfold s1; by rewrite Hrun1).
  assert (wf s1) as Hwf1 by by apply InitDatastore_wf.
  rewrite <- Hs1 in Hd1, Hc1.
  destruct (InitDatastore_descriptor connect app s1 t Hc1 Hwf1 Hconf)
    as (s2' & b0 & Hrun2 & _ & Hd2 & Hc2).
  assert (s2 = s2') as Hs2 by (unfold s2; by rewrite Hrun2).
  assert (wf s2) as Hwf2 by by apply InitDatastore_wf.
  destruct (InitDatastore_descriptor connect app (with_Config (Some t') s2) t'
              eq_refl (wf_with_Config _ _ Hwf2) Hconf')
    as (s3' & c0 & Hrun3 & _ & Hd3 & _).
  assert (s3 = s3') as Hs3 by (unfold s3; by rewrite Hrun3).
  rewrite <- Hs2 in Hd2. rewrite <- Hs3 in Hd3.
  exists (superbase.Init connect (assemble t app a0)).1,
         (superbase.Init connect (assemble t app b0)).1,
         (superbase.Init connect (assemble t' app c0)).1.
  rewrite !fields_Init_assemble. by repeat split.
Qed.

(** C10: on a well-formed state [InitDatastore app], whatever its outcome,
    leaves the registry entry and the descriptor (connection handle
    included) of every other name and the configuration tree as they were,
    and the entry of [app] is bound to an allocated descriptor afterwards,
    also when the configuration has no section for [app]. *)
Theorem C10_InitDatastore_frame connect app other s :
  wf s -> other <> app ->
  let s' := (InitDatastore connect app s).1 in
  entry other s' = entry other s /\
  descriptor other s' = descriptor other s /\
  Config (ms s') = Config (ms s) /\
  exists p d, entry app s' = Some p /\ heap s' !! p = Some d.
Proof.
  intros Hwf Hne s'. pose proof Hwf as (registry & Hr & _).
  destruct (InitDatastore_touches connect app s _ Hr) as (p & Hp & Ht).
  fold s' in Ht.
  pose proof (ensured_wf app s Hwf) as (reg1 & Hr1 & Halloc1 & Hinj1).
  destruct (ensured_frame app other s Hwf Hne) as [Hentry Hdesc].
  pose proof (touches_only_entry _ _ _ other Ht) as Heo.
  pose proof (touches_only_entry _ _ _ app Ht) as Hea.
  destruct Ht as [Hms [F HF]].
  split; [congruence|]. split; [|split].
  - rewrite <- Hdesc. unfold descriptor. rewrite Heo.
    destruct (entry other (ensured app s)) as [q|] eqn:Hq; [|done].
    rewrite HF. apply lookup_alter_ne.
    unfold entry in Hp, Hq. rewrite Hr1 in Hp, Hq.
    intros ->. apply Hne. by eapply Hinj1.
  - by rewrite Hms, ensured_Config.
  - unfold entry in Hp. rewrite Hr1 in Hp.
    destruct (Halloc1 _ _ Hp) as [d Hd].
    exists p, (F d). split; [by rewrite Hea; unfold entry; rewrite Hr1|].
    by rewrite HF, lookup_alter_eq, Hd.
Qed.

(** ** [CreateAPI] *)

(** C5: the address [CreateAPI] gives the web service is [host:port], the
    host being the value of the variable [ToUpper app + "_HOST"] if the
    environment sets it and [127.0.0.1] otherwise, the port the value of
    [ToUpper app + "_PORT"] if set and [7990] otherwise; it depends on the
    name and the environment only, not on the manager. *)
Theorem C5_CreateAPI_address ToUpper env m app :
  fibre.Address (WebService (CreateAPI ToUpper env m app)) =
    default "127.0.0.1" (env !! (ToUpper app +:+ "_HOST")) +:+ ":" +:+
    default "7990" (env !! (ToUpper app +:+ "_PORT")) /\
  forall m', fibre.Address (WebService (CreateAPI ToUpper env m' app)) =
             fibre.Address (WebService (CreateAPI ToUpper env m app)).
Proof.
  split; [|done]. unfold CreateAPI, config.Getenv. simpl.
  by destruct (env !! _), (env !! _).
Qed.

Example CreateAPI_shop_port :
  fibre.Address
    (WebService (CreateAPI ToUpperASCII {[ "SHOP_PORT" := "9000" ]}
                   (ms (configured shop_tree)) "shop"))
  = "127.0.0.1:9000".
Proof. by vm_compute. Qed.

(** ** Concrete runs *)

Lemma configured_wf t : wf (configured t).
Proof. exists ∅. split; [done|]. split; intros *; by rewrite lookup_empty. Qed.

Lemma InitManager_loads :
  InitManager host_files "config.toml" unconfigured = (configured shop_tree, Ret tt).
Proof. by vm_compute. Qed.

Lemma C1_GetAppProperty_resolves_witness :
  Config (ms (configured shop_tree)) = Some shop_tree /\
  GetAppProperty (ms (configured shop_tree)) "shop" "dbdriver"
    = Ret ("sqlite3", None) /\
  GetAppProperty (ms (configured shop_tree)) "shop" "dbserver"
    = Ret ("", Some ("Configuration missing 'dbserver' section under [shop] heading."
                       +:+ newline)) /\
  (PropertyNotFound "shop" "dbport" = PropertyNotFound "shop" "dbserver" ->
   "dbport" = "dbserver").
Proof.
  split; [reflexivity|].
  destruct (C1_GetAppProperty_resolves (ms (configured shop_tree)) shop_tree
              "shop" "dbdriver" eq_refl) as (Hfound & _).
  destruct (C1_GetAppProperty_resolves (ms (configured shop_tree)) shop_tree
              "shop" "dbserver" eq_refl) as (_ & _ & Habsent & _ & Hcarry).
  split; [|split].
  - apply Hfound. exists shop_section. split; reflexivity.
  - apply Habsent. reflexivity.
  - intros Heq. exact (proj2 (Hcarry "shop" "dbport" eq_refl eq_refl Heq)).
Defined.

Example InitDatastore_shop :
  exists s' d,
    InitDatastore sqlite_engine "shop" (configured shop_tree) = (s', Ret true) /\
    descriptor "shop" s' = Some d /\
    fields d = [""; ""; ""; ""; ""; "sqlite3"; "shop.db"].
Proof.
  destruct (InitDatastore_builds_readable sqlite_engine "shop"
              (configured shop_tree) shop_tree eq_refl
              (configured_wf shop_tree) eq_refl)
    as (s' & d & Hrun & Hd & Hf & _).
  by exists s', d.
Qed.

Lemma C10_InitDatastore_frame_witness :
  "billing" <> "shop" /\
  let s := (InitDatastore sqlite_engine "billing" (configured billing_tree)).1 in
  let s' := (InitDatastore sqlite_engine "shop" s).1 in
  descriptor "billing" s' = descriptor "billing" s /\
  Config (ms s') = Some billing_tree /\
  exists p d, entry "shop" s' = Some p /\ heap s' !! p = Some d.
Proof.
  split; [discriminate|]. intros s s'.
  destruct (C10_InitDatastore_frame sqlite_engine "shop" "billing" s
              (InitDatastore_wf sqlite_engine "billing" _
                 (configured_wf billing_tree))
              ltac:(discriminate))
    as (_ & Hd & Hc & Hp).
  split; [exact Hd|]. split; [exact Hc|exact Hp].
Defined.

(** ** Where the code departs from the specification *)

Lemma GetAppProperty_not_string m t app property node :
  Config m = Some t ->
  Get t (dotted app property) = Some node ->
  (forall s, node <> Leaf (VString s)) ->
  GetAppProperty m app property = Panicked TypeAssertion.
Proof.
  intros Hc Hg Hn. rewrite (GetAppProperty_loaded _ _ _ _ Hc), Hg.
  destruct node as [[]| |]; try done. by destruct (Hn s).
Qed.

(** C7: with [dbport = 5432] in section [[shop]] the path [shop.dbport]
    exists and holds an integer; [GetAppProperty] then panics in its type
    assertion instead of returning the error, and so does [InitDatastore]. *)
Theorem C7_GetAppProperty_panics_on_integer :
  Get port_tree (dotted "shop" "dbport") = Some (Leaf (VInteger 5432)) /\
  GetAppProperty (ms (configured port_tree)) "shop" "dbport"
    = Panicked TypeAssertion /\
  (InitDatastore sqlite_engine "shop" (configured port_tree)).2
    = Panicked TypeAssertion.
Proof. by vm_compute. Qed.

(** C3: with [dbserver = "db1"], [dbport = 5432] and [dbdriver = "sqlite3"]
    in section [[shop]], [InitDatastore] stores the server, panics in the
    type assertion on the port and never reaches the driver: the build is
    aborted and the configured string [sqlite3] is not in the descriptor. *)
Theorem C3_InitDatastore_aborts_on_integer :
  let r := InitDatastore sqlite_engine "shop" (configured mixed_tree) in
  section_has mixed_tree "shop" "dbdriver" "sqlite3" /\
  r.2 = Panicked TypeAssertion /\
  descriptor "shop" r.1 = Some (superbase.set_Server "db1" superbase.zero) /\
  (superbase.Driver <$> descriptor "shop" r.1) = Some "".
Proof.
  split.
  { eexists. split; reflexivity. }
  by vm_compute.
Qed.

(** C4: [shop] is registered under [old_tree]; the configuration is then
    replaced by [new_tree], where [dbserver] is an integer, [dbdriver] is
    [sqlite3] and [database] is absent. The second [InitDatastore] panics on
    the first property and the descriptor keeps all seven fields of the old
    configuration. *)
Theorem C4_InitDatastore_keeps_stale_fields :
  let s1 := (InitDatastore sqlite_engine "shop" (configured old_tree)).1 in
  let r := InitDatastore sqlite_engine "shop" (with_Config (Some new_tree) s1) in
  section_has new_tree "shop" "dbdriver" "sqlite3" /\
  path_absent new_tree "shop" "database" /\
  (fields <$> descriptor "shop" s1)
    = Some ["db1"; ""; "olddb"; ""; ""; "mysql"; ""] /\
  r.2 = Panicked TypeAssertion /\
  (fields <$> descriptor "shop" r.1)
    = Some ["db1"; ""; "olddb"; ""; ""; "mysql"; ""].
Proof.
  split.
  { eexists. split; reflexivity. }
  by vm_compute.
Qed.

Lemma returns_only_bind {A B} (b : B) (m : M A) (k : A -> M B) :
  (forall a, returns_only b (k a)) -> returns_only b (m ≫= k).
Proof.
  intros Hk s b'. unfold mbind, M_bind.
  destruct (m s) as [s' [a| |]]; simpl; try done. apply Hk.
Qed.

Lemma InitDatastore_returns_true connect app :
  returns_only true (InitDatastore connect app).
Proof.
  unfold InitDatastore. repeat (apply returns_only_bind; intros _).
  intros s b. simpl. by intros [= <-].
Qed.

(** C2: with [dbdriver = "oracle"] the engine refuses the descriptor that
    [InitDatastore] assembles, no connection is stored, and [InitDatastore]
    returns [true] all the same. *)
Theorem C2_InitDatastore_true_on_failed_connection :
  let r := InitDatastore sqlite_engine "shop" (configured oracle_tree) in
  r.2 = Ret true /\
  sqlite_engine (assemble oracle_tree "shop" superbase.zero)
    = inr "unsupported driver" /\
  descriptor "shop" r.1
    = Some (superbase.set_Connection None
              (assemble oracle_tree "shop" superbase.zero)).
Proof. by vm_compute. Qed.

Lemma InitManager_missing fs cfgfile s :
  os.Stat fs cfgfile = Some os.ErrNotExist ->
  InitManager fs cfgfile s =
    (s, Exited ("File '" +:+ cfgfile +:+ "' does not exist." +:+ newline)).
Proof. intros Hstat. unfold InitManager. by rewrite Hstat. Qed.

Lemma InitManager_load_failure fs cfgfile s cause :
  os.IsNotExist (os.Stat fs cfgfile) = false ->
  os.LoadFile fs cfgfile = inr cause ->
  InitManager fs cfgfile s =
    ({| ms := {| Config := None; DBConfig := Some ∅ |}; heap := heap s |},
     Ret tt).
Proof. intros Hstat Hload. unfold InitManager. by rewrite Hstat, Hload. Qed.

(** C6: a file that does not exist ends the process, but for a file that
    exists and does not parse [InitManager] returns with a nil configuration
    tree and a new registry, and the next [InitDatastore] panics on the nil
    tree. *)
Theorem C6_InitManager_continues_after_load_failure :
  InitManager host_files "missing.toml" unconfigured
    = (unconfigured, Exited ("File 'missing.toml' does not exist." +:+ newline)) /\
  InitManager host_files "broken.toml" unconfigured
    = ({| ms := {| Config := None; DBConfig := Some ∅ |}; heap := ∅ |}, Ret tt) /\
  (InitDatastore sqlite_engine "shop"
     (InitManager host_files "broken.toml" unconfigured).1).2
    = Panicked NilDereference.
Proof. by vm_compute. Qed.

(** C8 as stated fails: on the manager that was never configured
    [GetAppProperty] panics, it does not return an error. *)
Lemma C8_GetAppProperty_unconfigured_counterexample :
  GetAppProperty (ms unconfigured) "shop" "dbdriver" = Panicked NilDereference /\
  ~ exists v e, GetAppProperty (ms unconfigured) "shop" "dbdriver"
                = Ret (v, Some e).
Proof. split; [done|]. by intros (v & e & ?). Qed.

(** C8, amended: on a manager without a configuration tree [GetAppProperty]
    never returns, so never an empty string as a success: it fails with a
    nil-dereference panic. *)
Theorem C8_GetAppProperty_unconfigured_panics m app property :
  Config m = None ->
  GetAppProperty m app property = Panicked NilDereference /\
  forall v e, GetAppProperty m app property <> Ret (v, e).
Proof. intros Hc. unfold GetAppProperty. by rewrite Hc. Qed.

Lemma C8_GetAppProperty_unconfigured_panics_witness :
  Config (ms unconfigured) = None /\
  GetAppProperty (ms unconfigured) "shop" "dbdriver" = Panicked NilDereference.
Proof.
  split; [reflexivity|].
  apply (C8_GetAppProperty_unconfigured_panics (ms unconfigured) "shop"
           "dbdriver" eq_refl).
Defined.

(** C9 as stated fails: a configuration that sets [dbserver] of [[shop]] to
    the empty string and one that omits it give the same return value, the
    same registry and the same descriptors. *)
Lemma C9_empty_and_absent_counterexample :
  let r1 := InitDatastore sqlite_engine "shop" (configured empty_server_tree) in
  let r2 := InitDatastore sqlite_engine "shop" (configured absent_server_tree) in
  section_has empty_server_tree "shop" "dbserver" "" /\
  path_absent absent_server_tree "shop" "dbserver" /\
  r1.2 = r2.2 /\
  DBConfig (ms r1.1) = DBConfig (ms r2.1) /\
  heap r1.1 = heap r2.1 /\
  descriptor "shop" r1.1 = descriptor "shop" r2.1.
Proof.
  split.
  { eexists. split; reflexivity. }
  by vm_compute.
Qed.

Lemma ensured_with_Config c app s :
  ensured app (with_Config c s) = with_Config c (ensured app s).
Proof.
  destruct s as [[c0 [registry|]] h];
    unfold ensured, ensure_entry, entry, with_Config; simpl; [|done].
  by destruct (registry !! app).
Qed.

Lemma assemble_config_fields t1 t2 app d :
  config_fields t1 app = config_fields t2 app ->
  assemble t1 app d = assemble t2 app d.
Proof.
  unfold config_fields, db_fields, assemble. simpl.
  intros [= -> -> -> -> -> -> ->]. done.
Qed.

(** C9, amended: the build does not tell a property that is absent from one
    that is set to the empty string. Two configurations in which the seven
    properties of [app] give the same strings, an absent one read as empty,
    lead to the same return value, the same registry and the same
    descriptors. *)
Theorem C9_InitDatastore_hides_defaulted_fields connect app s t1 t2 :
  wf s -> configurable t1 app = true -> configurable t2 app = true ->
  config_fields t1 app = config_fields t2 app ->
  let r1 := InitDatastore connect app (with_Config (Some t1) s) in
  let r2 := InitDatastore connect app (with_Config (Some t2) s) in
  r1.2 = r2.2 /\
  DBConfig (ms r1.1) = DBConfig (ms r2.1) /\
  heap r1.1 = heap r2.1 /\
  descriptor app r1.1 = descriptor app r2.1.
Proof.
  intros Hwf Hc1 Hc2 Hsame r1 r2. pose proof Hwf as (registry & Hr & _).
  destruct (ensured_entry app s _ Hr) as [p Hp].
  assert (forall c, entry app (ensured app (with_Config c s)) = Some p) as Hpc.
  { intros c. by rewrite ensured_with_Config. }
  pose proof (InitDatastore_run connect app (with_Config (Some t1) s) t1
                registry p eq_refl Hr Hc1 (Hpc _)) as Hrun1.
  pose proof (InitDatastore_run connect app (with_Config (Some t2) s) t2
                registry p eq_refl Hr Hc2 (Hpc _)) as Hrun2.
  fold r1 in Hrun1. fold r2 in Hrun2.
  rewrite Hrun1, Hrun2, !ensured_with_Config. unfold descriptor, entry. simpl.
  assert (alter (fun d => (superbase.Init connect (assemble t1 app d)).1) p
            (heap (ensured app s))
          = alter (fun d => (superbase.Init connect (assemble t2 app d)).1) p
              (heap (ensured app s))) as ->.
  { apply alter_ext. intros d _.
    by rewrite (assemble_config_fields _ _ _ _ Hsame). }
  done.
Qed.

Lemma C9_InitDatastore_hides_defaulted_fields_witness :
  configurable empty_server_tree "shop" = true /\
  configurable absent_server_tree "shop" = true /\
  config_fields empty_server_tree "shop" = config_fields absent_server_tree "shop" /\
  (InitDatastore sqlite_engine "shop"
     (with_Config (Some empty_server_tree) (configured shop_tree))).2
  = (InitDatastore sqlite_engine "shop"
       (with_Config (Some absent_server_tree) (configured shop_tree))).2.
Proof.
  split; [reflexivity|]. split; [reflexivity|]. split; [reflexivity|].
  apply (C9_InitDatastore_hides_defaulted_fields sqlite_engine "shop"
           (configured shop_tree) empty_server_tree absent_server_tree
           (configured_wf shop_tree) eq_refl eq_refl eq_refl).
Defined.

(** * Further properties of the code *)

(** ** The monad, continued *)

Lemma bind_Panicked {A B} (m : M A) (k : A -> M B) s s' why :
  m s = (s', Panicked why) -> (m ≫= k) s = (s', Panicked why).
Proof. intros Hm. unfold mbind, M_bind. by rewrite Hm. Qed.

Lemma bind_ext {A B} (m : M A) (k k' : A -> M B) s :
  (forall a s', k a s' = k' a s') -> (m ≫= k) s = (m ≫= k') s.
Proof.
  intros Hk. unfold mbind, M_bind. destruct (m s) as [s' [a| |]]; [|done..].
  apply Hk.
Qed.

Lemma bind_assoc {A B C} (m : M A) (k : A -> M B) (h : B -> M C) s :
  ((m ≫= k) ≫= h) s = (m ≫= fun a => k a ≫= h) s.
Proof. unfold mbind, M_bind. by destruct (m s) as [s' [a| |]]. Qed.

(** [InitDatastore] is [ensure_entry], the seven assignments, [Init] and
    the return of [true]. *)
Lemma InitDatastore_unrolled connect app s :
  InitDatastore connect app s =
    (ensure_entry app;;
     assign_all app db_setters;;
     init_entry connect app;;
     mret true) s.
Proof.
  unfold InitDatastore. apply bind_ext. intros _ s1.
  unfold db_setters, assign_all.
  repeat (rewrite bind_assoc; apply bind_ext; intros _ ?).
  done.
Qed.

(** ** The assignments, whatever the configured values are *)

Lemma assign_property_panics app set_F property s t :
  Config (ms s) = Some t -> readable t app property = false ->
  assign_property app set_F property s = (s, Panicked TypeAssertion).
Proof.
  intros Hc Hread. unfold assign_property.
  rewrite (GetAppProperty_loaded _ _ _ _ Hc). unfold readable in Hread.
  by destruct (Get t (dotted app property)) as [[[]| |]|].
Qed.

Lemma upd_heap_alter_id p s : upd_heap (alter (fun d => d) p) s = s.
Proof. destruct s as [m h]. unfold upd_heap. simpl. by rewrite alter_id. Qed.

Lemma assign_all_run app steps s t p :
  Config (ms s) = Some t -> entry app s = Some p ->
  assign_all app steps s =
    (upd_heap (alter (apply_setters t app (readable_prefix t app steps)) p) s,
     if forallb (fun kf => readable t app kf.1) steps
     then Ret tt else Panicked TypeAssertion).
Proof.
  revert s. induction steps as [|[k f] steps IH]; intros s Hc He.
  - simpl. unfold apply_setters. simpl. by rewrite upd_heap_alter_id.
  - cbn [assign_all readable_prefix forallb fst snd].
    destruct (readable t app k) eqn:Hread; cbn [andb].
    + rewrite (bind_Ret _ _ _ _ _ (assign_property_Ret _ f _ _ _ _ Hc Hread He)).
      rewrite IH by done. unfold upd_heap. simpl.
      by rewrite alter_alter_eq.
    + rewrite (bind_Panicked _ _ _ _ _ (assign_property_panics _ f _ _ _ Hc Hread)).
      unfold apply_setters. simpl. by rewrite upd_heap_alter_id.
Qed.

Lemma configurable_setters t app :
  forallb (fun kf => readable t app kf.1) db_setters = configurable t app.
Proof. done. Qed.

Lemma assemble_setters t app d :
  apply_setters t app db_setters d = assemble t app d.
Proof. done. Qed.

Lemma readable_prefix_all t app steps :
  forallb (fun kf => readable t app kf.1) steps = true ->
  readable_prefix t app steps = steps.
Proof.
  induction steps as [|kf steps IH]; simpl; [done|].
  destruct (readable t app kf.1); simpl; [|done]. intros Hs. by rewrite IH.
Qed.

(** [InitDatastore] on a loaded configuration, in full. *)
Lemma InitDatastore_run_any connect app s t registry p :
  Config (ms s) = Some t -> DBConfig (ms s) = Some registry ->
  entry app (ensured app s) = Some p ->
  InitDatastore connect app s =
    if configurable t app
    then (upd_heap
            (alter (fun d => (superbase.Init connect (assemble t app d)).1) p)
            (ensured app s), Ret true)
    else (upd_heap
            (alter (apply_setters t app (readable_prefix t app db_setters)) p)
            (ensured app s), Panicked TypeAssertion).
Proof.
  intros Hc Hr Hp.
  destruct (configurable t app) eqn:Hconf;
    [by eapply InitDatastore_run|].
  rewrite InitDatastore_unrolled.
  rewrite (bind_Ret _ _ _ _ _ (ensure_entry_Ret app s _ Hr)).
  rewrite <- (ensured_Config app s) in Hc.
  apply bind_Panicked. rewrite (assign_all_run _ _ _ t p Hc Hp).
  by rewrite configurable_setters, Hconf.
Qed.

Lemma ensured_descriptor app s :
  wf s -> descriptor app (ensured app s) = Some (previous app s).
Proof.
  intros (registry & Hr & Halloc & _).
  unfold previous, descriptor, ensured, ensure_entry, entry. rewrite Hr.
  destruct (registry !! app) as [p|] eqn:Ha; simpl.
  - rewrite Hr, Ha. destruct (Halloc _ _ Ha) as [d Hd]. by rewrite Hd.
  - by rewrite !lookup_insert_eq.
Qed.

(** ** [InitDatastore] outside the configured case *)

Lemma stale_state_wf : wf stale_state.
Proof.
  exists (<["shop" := 1%positive]> ∅). split; [reflexivity|]. split.
  - intros a p Ha. apply lookup_insert_Some in Ha as [[_ <-]|[_ Ha]].
    + exists (previous "shop" stale_state). reflexivity.
    + by rewrite lookup_empty in Ha.
  - intros a b p Ha Hb.
    apply lookup_insert_Some in Ha as [[<- _]|[_ Ha]];
      [|by rewrite lookup_empty in Ha].
    apply lookup_insert_Some in Hb as [[<- _]|[_ Hb]];
      [done|by rewrite lookup_empty in Hb].
Qed.

(** X1: on a manager whose registry is the nil map (before [InitManager])
    [InitDatastore] panics on the write to the map and changes nothing. *)
Theorem InitDatastore_nil_registry connect app s :
  DBConfig (ms s) = None ->
  InitDatastore connect app s = (s, Panicked NilMapAssignment).
Proof.
  intros Hr. unfold InitDatastore. apply bind_Panicked.
  unfold ensure_entry, entry. by rewrite Hr.
Qed.

Lemma InitDatastore_nil_registry_witness :
  DBConfig (ms unconfigured) = None /\
  InitDatastore sqlite_engine "shop" unconfigured
    = (unconfigured, Panicked NilMapAssignment).
Proof.
  split; [reflexivity|].
  apply (InitDatastore_nil_registry sqlite_engine "shop" unconfigured eq_refl).
Defined.

Lemma nil_Config_run connect app s :
  wf s -> Config (ms s) = None ->
  InitDatastore connect app s = (ensured app s, Panicked NilDereference).
Proof.
  intros (registry & Hr & _) Hc. unfold InitDatastore.
  rewrite (bind_Ret _ _ _ _ _ (ensure_entry_Ret app s _ Hr)).
  apply bind_Panicked. unfold assign_property, GetAppProperty.
  by rewrite ensured_Config, Hc.
Qed.

(** X2: when the registry is a map but the configuration tree is nil (the
    load failed), [InitDatastore] panics on the first property, after the
    entry of [app] has been made: a name that was not registered is left
    bound to a zero descriptor, a registered one keeps its descriptor, and
    no other descriptor changes. *)
Theorem InitDatastore_nil_Config connect app s :
  wf s -> Config (ms s) = None ->
  let s' := (InitDatastore connect app s).1 in
  (InitDatastore connect app s).2 = Panicked NilDereference /\
  descriptor app s' = Some (previous app s) /\
  forall other, other <> app -> descriptor other s' = descriptor other s.
Proof.
  intros Hwf Hc. rewrite (nil_Config_run connect app s Hwf Hc).
  simpl. split; [done|]. split; [by apply ensured_descriptor|].
  intros other Hne. by apply ensured_frame.
Qed.

Lemma InitDatastore_nil_Config_witness :
  Config (ms (InitManager host_files "broken.toml" unconfigured).1) = None /\
  (InitDatastore sqlite_engine "shop"
     (InitManager host_files "broken.toml" unconfigured).1).2
    = Panicked NilDereference /\
  descriptor "shop"
    (InitDatastore sqlite_engine "shop"
       (InitManager host_files "broken.toml" unconfigured).1).1
    = Some superbase.zero.
Proof.
  split; [reflexivity|].
  destruct (InitDatastore_nil_Config sqlite_engine "shop"
              (InitManager host_files "broken.toml" unconfigured).1
              (InitManager_wf host_files "broken.toml" unconfigured eq_refl)
              eq_refl) as (Hout & Hd & _).
  split; [exact Hout|exact Hd].
Defined.

(** X3: on a loaded configuration [InitDatastore] has two outcomes only:
    it returns [true] when each of the seven properties is absent or a
    string, and it panics in the type assertion otherwise. *)
Theorem InitDatastore_outcome connect app s t :
  wf s -> Config (ms s) = Some t ->
  (InitDatastore connect app s).2 =
    if configurable t app then Ret true else Panicked TypeAssertion.
Proof.
  intros (registry & Hr & _) Hc.
  destruct (ensured_entry app s _ Hr) as [p Hp].
  rewrite (InitDatastore_run_any connect app s t registry p Hc Hr Hp).
  by destruct (configurable t app).
Qed.

Lemma InitDatastore_outcome_witness :
  Config (ms (configured mixed_tree)) = Some mixed_tree /\
  (InitDatastore sqlite_engine "shop" (configured mixed_tree)).2
    = Panicked TypeAssertion /\
  (InitDatastore sqlite_engine "billing" (configured mixed_tree)).2
    = Ret true.
Proof.
  split; [reflexivity|]. split.
  - apply (InitDatastore_outcome sqlite_engine "shop" (configured mixed_tree)
             mixed_tree (configured_wf mixed_tree) eq_refl).
  - apply (InitDatastore_outcome sqlite_engine "billing" (configured mixed_tree)
             mixed_tree (configured_wf mixed_tree) eq_refl).
Defined.

Lemma readable_prefix_Connection t app d :
  superbase.Connection
    (apply_setters t app (readable_prefix t app db_setters) d)
  = superbase.Connection d.
Proof.
  unfold db_setters. cbn [readable_prefix fst snd].
  repeat (destruct (readable t app _); [|reflexivity]). reflexivity.
Qed.

(** X4: [InitDatastore] is not atomic. When it panics on a property that is
    not a string, the fields of the properties before it hold their
    configured strings, the field of that property and the later ones keep
    what the descriptor held, and so does the connection ([Init] is not
    reached). *)
Theorem InitDatastore_partial_overwrite connect app s t :
  wf s -> Config (ms s) = Some t -> configurable t app = false ->
  let s' := (InitDatastore connect app s).1 in
  descriptor app s' =
    Some (apply_setters t app (readable_prefix t app db_setters)
            (previous app s)) /\
  (superbase.Connection <$> descriptor app s')
    = Some (superbase.Connection (previous app s)).
Proof.
  intros Hwf Hc Hconf s'. pose proof Hwf as (registry & Hr & _).
  destruct (ensured_entry app s _ Hr) as [p Hp].
  pose proof (ensured_descriptor app s Hwf) as Hprev.
  assert (descriptor app s' =
            Some (apply_setters t app (readable_prefix t app db_setters)
                    (previous app s))) as Hd.
  { unfold s'.
    rewrite (InitDatastore_run_any connect app s t registry p Hc Hr Hp), Hconf.
    cbn [fst]. unfold descriptor in *.
    change (entry app (upd_heap ?f (ensured app s)))
      with (entry app (ensured app s)).
    rewrite Hp in *. cbn [upd_heap heap].
    by rewrite lookup_alter_eq, Hprev. }
  split; [done|]. rewrite Hd. simpl. by rewrite readable_prefix_Connection.
Qed.

Lemma InitDatastore_partial_overwrite_witness :
  Config (ms stale_state) = Some mixed_tree /\
  configurable mixed_tree "shop" = false /\
  descriptor "shop" (InitDatastore sqlite_engine "shop" stale_state).1
  = Some {| superbase.Server := "db1"; superbase.Port := "1";
            superbase.Database := "olddb"; superbase.User := "u";
            superbase.Password := "pw"; superbase.Driver := "mysql";
            superbase.Path := "/old";
            superbase.Connection := Some (superbase.Opened 7) |}.
Proof.
  split; [reflexivity|]. split; [reflexivity|].
  pose proof stale_state_wf as Hwf.
  exact (proj1 (InitDatastore_partial_overwrite sqlite_engine "shop"
                  stale_state mixed_tree Hwf eq_refl eq_refl)).
Defined.

(** ** The registry and the descriptors *)

(** X5: whatever its outcome, [InitDatastore app] on a well-formed state
    adds at most the name [app] to the registry. A name that is registered
    keeps its descriptor object and nothing is allocated; for a new name
    exactly one descriptor is allocated, at a location not used before. *)
Theorem InitDatastore_registry connect app s :
  wf s ->
  let s' := (InitDatastore connect app s).1 in
  exists registry registry',
    DBConfig (ms s) = Some registry /\
    DBConfig (ms s') = Some registry' /\
    dom registry' = {[app]} ∪ dom registry /\
    (forall p, registry !! app = Some p ->
               registry' = registry /\ dom (heap s') = dom (heap s)) /\
    (registry !! app = None ->
     exists p, registry' = <[app := p]> registry /\
               (p ∉ dom (heap s)) /\
               dom (heap s') = {[p]} ∪ dom (heap s)).
Proof.
  intros Hwf s'. pose proof Hwf as (registry & Hr & _).
  destruct (InitDatastore_touches connect app s _ Hr) as (q & _ & Hms & F & HF).
  fold s' in Hms, HF. exists registry. rewrite Hms, HF, dom_alter_L.
  unfold ensured, ensure_entry, entry. rewrite Hr.
  destruct (registry !! app) as [p|] eqn:Ha; simpl.
  - exists registry. rewrite Hr. split; [done|]. split; [done|]. split.
    + apply elem_of_dom_2 in Ha. symmetry. apply subseteq_union_1_L.
      by apply singleton_subseteq_l.
    + split; [by intros|done].
  - eexists. split; [done|]. split; [done|]. split; [by rewrite dom_insert_L|].
    split; [done|]. intros _. eexists. split; [done|].
    split; [apply is_fresh|by rewrite dom_insert_L].
Qed.

Lemma InitDatastore_registry_witness :
  exists registry',
    DBConfig (ms (InitDatastore sqlite_engine "shop" stale_state).1)
      = Some registry' /\
    dom registry' = {[ "shop" ]} ∪ dom (<["shop" := 1%positive]> (∅ : gmap string loc)).
Proof.
  pose proof stale_state_wf as Hwf.
  destruct (InitDatastore_registry sqlite_engine "shop" stale_state Hwf)
    as (registry & registry' & Hr & Hr' & Hdom & _).
  exists registry'. split; [exact Hr'|].
  injection Hr as <-. exact Hdom.
Defined.

Lemma InitDatastore_keeps_others connect app other s :
  wf s -> other <> app ->
  descriptor other (InitDatastore connect app s).1 = descriptor other s.
Proof.
  intros Hwf Hne. pose proof Hwf as (registry & Hr & _).
  destruct (InitDatastore_touches connect app s _ Hr) as (p & Hp & Ht).
  pose proof (ensured_wf app s Hwf) as (reg1 & Hr1 & _ & Hinj1).
  destruct (ensured_frame app other s Hwf Hne) as [_ <-].
  pose proof (touches_only_entry _ _ _ other Ht) as Heo.
  destruct Ht as [_ [F HF]]. unfold descriptor. rewrite Heo.
  destruct (entry other (ensured app s)) as [q|] eqn:Hq; [|done].
  rewrite HF. apply lookup_alter_ne.
  unfold entry in Hp, Hq. rewrite Hr1 in Hp, Hq.
  intros ->. apply Hne. by eapply Hinj1.
Qed.

Lemma InitDatastore_keeps_Config connect app s :
  wf s -> Config (ms (InitDatastore connect app s).1) = Config (ms s).
Proof.
  intros (registry & Hr & _).
  destruct (InitDatastore_touches connect app s _ Hr) as (p & _ & Hms & _).
  by rewrite Hms, ensured_Config.
Qed.

Lemma InitDatastore_descriptor_previous connect app s t :
  Config (ms s) = Some t -> wf s -> configurable t app = true ->
  descriptor app (InitDatastore connect app s).1 =
    Some (superbase.Init connect (assemble t app (previous app s))).1.
Proof.
  intros Hc Hwf Hconf.
  destruct (InitDatastore_descriptor connect app s t Hc Hwf Hconf)
    as (s' & d0 & Hrun & Hd0 & Hd & _).
  rewrite (ensured_descriptor app s Hwf) in Hd0. simplify_eq.
  by rewrite Hrun.
Qed.

(** X6: the connection that a returning [InitDatastore] leaves in the
    descriptor of [app] is the answer of the storage engine for the
    descriptor as assembled from the current configuration (the seven new
    strings, with the connection held before): the handle if the engine
    accepts it, nil if it refuses. *)
Theorem InitDatastore_connection connect app s t :
  wf s -> Config (ms s) = Some t -> configurable t app = true ->
  exists d,
    descriptor app (InitDatastore connect app s).1 = Some d /\
    superbase.Connection d =
      match connect (assemble t app (previous app s)) with
      | inl h => Some h
      | inr _ => None
      end.
Proof.
  intros Hwf Hc Hconf. eexists. split.
  - by apply InitDatastore_descriptor_previous.
  - unfold superbase.Init. by destruct (connect _).
Qed.

Lemma InitDatastore_connection_witness :
  Config (ms (configured shop_tree)) = Some shop_tree /\
  configurable shop_tree "shop" = true /\
  exists d,
    descriptor "shop"
      (InitDatastore sqlite_engine "shop" (configured shop_tree)).1 = Some d /\
    superbase.Connection d = Some (superbase.Opened 1).
Proof.
  split; [reflexivity|]. split; [reflexivity|].
  exact (InitDatastore_connection sqlite_engine "shop" (configured shop_tree)
           shop_tree (configured_wf shop_tree) eq_refl eq_refl).
Defined.

(** X7: registrations of two different names commute: registering [a] then
    [b] leaves the same descriptors for [a] and for [b] as registering [b]
    then [a] (the locations may differ). *)
Theorem InitDatastore_commutes connect a b s t :
  wf s -> Config (ms s) = Some t -> a <> b ->
  configurable t a = true -> configurable t b = true ->
  let sab := (InitDatastore connect b (InitDatastore connect a s).1).1 in
  let sba := (InitDatastore connect a (InitDatastore connect b s).1).1 in
  descriptor a sab = descriptor a sba /\ descriptor b sab = descriptor b sba.
Proof.
  intros Hwf Hc Hne Ha Hb sab sba.
  assert (forall x y, x <> y -> configurable t x = true ->
            descriptor x (InitDatastore connect y (InitDatastore connect x s).1).1
            = descriptor x (InitDatastore connect x (InitDatastore connect y s).1).1)
    as Hswap.
  { intros x y Hxy Hx.
    rewrite InitDatastore_keeps_others
      by (by apply InitDatastore_wf || done).
    rewrite (InitDatastore_descriptor_previous connect x s t) by done.
    rewrite (InitDatastore_descriptor_previous connect x _ t);
      [|by rewrite InitDatastore_keeps_Config|by apply InitDatastore_wf|done].
    unfold previous. by rewrite InitDatastore_keeps_others. }
  split.
  - by apply Hswap.
  - symmetry. by apply Hswap.
Qed.

Lemma InitDatastore_commutes_witness :
  "shop" <> "billing" /\
  descriptor "shop"
    (InitDatastore sqlite_engine "billing"
       (InitDatastore sqlite_engine "shop" (configured shop_tree)).1).1
  = descriptor "shop"
      (InitDatastore sqlite_engine "shop"
         (InitDatastore sqlite_engine "billing" (configured shop_tree)).1).1.
Proof.
  split; [discriminate|].
  exact (proj1 (InitDatastore_commutes sqlite_engine "shop" "billing"
                  (configured shop_tree) shop_tree (configured_wf shop_tree)
                  eq_refl ltac:(discriminate) eq_refl eq_refl)).
Defined.

(** ** From [InitManager] to [InitDatastore] *)

Lemma InitManager_Ret fs cfgfile s :
  os.IsNotExist (os.Stat fs cfgfile) = false ->
  InitManager fs cfgfile s = ((InitManager fs cfgfile s).1, Ret tt).
Proof. intros Hstat. unfold InitManager. by rewrite Hstat. Qed.

Lemma InitManager_entry fs cfgfile s app :
  os.IsNotExist (os.Stat fs cfgfile) = false ->
  descriptor app (InitManager fs cfgfile s).1 = None.
Proof.
  intros Hstat. unfold descriptor, entry, InitManager. rewrite Hstat. simpl.
  by rewrite lookup_empty.
Qed.

(** X8: from any state of the manager, [InitManager] on a file that loads
    followed by [InitDatastore app] returns [true] when the seven properties
    of [app] are readable; the descriptor of [app] is then a new one (the
    engine is asked with the seven configured strings and no connection),
    and no other name is registered, whatever was registered before. *)
Theorem InitManager_then_InitDatastore fs cfgfile connect app s t :
  os.IsNotExist (os.Stat fs cfgfile) = false ->
  os.LoadFile fs cfgfile = inl t ->
  configurable t app = true ->
  let r := (InitManager fs cfgfile;; InitDatastore connect app) s in
  r.2 = Ret true /\
  descriptor app r.1 =
    Some (superbase.Init connect (assemble t app superbase.zero)).1 /\
  forall other, other <> app -> descriptor other r.1 = None.
Proof.
  intros Hstat Hload Hconf r. unfold r.
  rewrite (bind_Ret _ _ _ _ _ (InitManager_Ret fs cfgfile s Hstat)).
  pose proof (InitManager_wf fs cfgfile s Hstat) as Hwf.
  assert (Config (ms (InitManager fs cfgfile s).1) = Some t) as Hc.
  { unfold InitManager. by rewrite Hstat, Hload. }
  destruct (InitDatastore_descriptor connect app _ t Hc Hwf Hconf)
    as (s' & d0 & Hrun & _).
  split; [by rewrite Hrun|]. split.
  - rewrite (InitDatastore_descriptor_previous _ _ _ t) by done.
    unfold previous. by rewrite InitManager_entry.
  - intros other Hne. rewrite InitDatastore_keeps_others by done.
    by apply InitManager_entry.
Qed.

Lemma InitManager_then_InitDatastore_witness :
  os.IsNotExist (os.Stat host_files "config.toml") = false /\
  os.LoadFile host_files "config.toml" = inl shop_tree /\
  configurable shop_tree "shop" = true /\
  ((InitManager host_files "config.toml";;
    InitDatastore sqlite_engine "shop") stale_state).2 = Ret true /\
  forall other, other <> "shop" ->
    descriptor other
      ((InitManager host_files "config.toml";;
        InitDatastore sqlite_engine "shop") stale_state).1 = None.
Proof.
  split; [reflexivity|]. split; [reflexivity|]. split; [reflexivity|].
  destruct (InitManager_then_InitDatastore host_files "config.toml"
              sqlite_engine "shop" stale_state shop_tree
              eq_refl eq_refl eq_refl) as (Hout & _ & Hothers).
  split; [exact Hout|exact Hothers].
Defined.

(** X9: when the file is not reported missing but does not load (also when
    [os.Stat] fails for another reason, such as a permission error),
    [InitManager] returns and the following [InitDatastore] panics on the
    nil tree, leaving [app] registered with a zero descriptor. *)
Theorem InitManager_load_failure_then_InitDatastore
  fs cfgfile connect app s cause :
  os.IsNotExist (os.Stat fs cfgfile) = false ->
  os.LoadFile fs cfgfile = inr cause ->
  let r := (InitManager fs cfgfile;; InitDatastore connect app) s in
  r.2 = Panicked NilDereference /\
  descriptor app r.1 = Some superbase.zero.
Proof.
  intros Hstat Hload r. unfold r.
  rewrite (bind_Ret _ _ _ _ _ (InitManager_Ret fs cfgfile s Hstat)).
  pose proof (InitManager_wf fs cfgfile s Hstat) as Hwf.
  assert (Config (ms (InitManager fs cfgfile s).1) = None) as Hc.
  { unfold InitManager. by rewrite Hstat, Hload. }
  rewrite (nil_Config_run connect app _ Hwf Hc). simpl.
  split; [done|]. rewrite (ensured_descriptor app _ Hwf). unfold previous.
  by rewrite InitManager_entry.
Qed.

Lemma InitManager_load_failure_then_InitDatastore_witness :
  os.IsNotExist (os.Stat host_files "broken.toml") = false /\
  os.LoadFile host_files "broken.toml" = inr "(1, 1): unexpected token" /\
  ((InitManager host_files "broken.toml";;
    InitDatastore sqlite_engine "shop") unconfigured).2
    = Panicked NilDereference.
Proof.
  split; [reflexivity|]. split; [reflexivity|].
  exact (proj1 (InitManager_load_failure_then_InitDatastore host_files
                  "broken.toml" sqlite_engine "shop" unconfigured _
                  eq_refl eq_refl)).
Defined.

(** ** Names and dots *)

Lemma Get_missing_section t app property :
  strings.bare app = true -> t !! app = None ->
  Get t (dotted app property) = None.
Proof.
  intros Hbare Hnone. rewrite Get_dotted, (Split_bare _ Hbare).
  pose proof (Split_nonempty property) as Hne.
  destruct (strings.Split property) as [|k ks]; [done|].
  simpl. by rewrite Hnone.
Qed.

Lemma dotted_assoc a b k : dotted (dotted a b) k = dotted a (dotted b k).
Proof.
  unfold dotted. induction a as [|c a IH]; [done|].
  exact (f_equal (String c) IH).
Qed.

(** X10: the application name and the property name are only joined with a
    dot, so the place of the boundary is not observed: [GetAppProperty] for
    the name [a.b] and the property [k] reads the same key as for the name
    [a] and the property [b.k], and returns the same string. *)
Theorem GetAppProperty_boundary m a b k :
  dotted (dotted a b) k = dotted a (dotted b k) /\
  (forall v, GetAppProperty m (dotted a b) k = Ret (v, None) <->
             GetAppProperty m a (dotted b k) = Ret (v, None)) /\
  (forall why, GetAppProperty m (dotted a b) k = Panicked why <->
               GetAppProperty m a (dotted b k) = Panicked why).
Proof.
  split; [apply dotted_assoc|]. unfold GetAppProperty.
  rewrite dotted_assoc. destruct (Config m) as [t|]; [|done].
  destruct (Get t (dotted a (dotted b k))) as [[[]| |]|];
    split; intros; split; intros; by simplify_eq.
Qed.

(** X11: a section whose name contains a dot is looked up as nested tables.
    If the piece before the first dot is not a top-level key, the property is
    reported missing, also when the tree has a table under the whole dotted
    name (a quoted key). *)
Theorem GetAppProperty_dotted_name m t a b property :
  Config m = Some t -> strings.bare a = true -> t !! a = None ->
  GetAppProperty m (dotted a b) property =
    Ret ("", Some (PropertyNotFound (dotted a b) property)).
Proof.
  intros Hc Hbare Hnone. rewrite (GetAppProperty_loaded _ _ _ _ Hc).
  by rewrite dotted_assoc, (Get_missing_section _ _ _ Hbare Hnone).
Qed.

Lemma GetAppProperty_dotted_name_witness :
  quoted_tree !! "eu.shop"
    = Some (Table (<["dbdriver" := Leaf (VString "sqlite3")]> ∅)) /\
  GetAppProperty (ms (configured quoted_tree)) "eu.shop" "dbdriver" =
    Ret ("", Some (PropertyNotFound "eu.shop" "dbdriver")).
Proof.
  split; [reflexivity|].
  exact (GetAppProperty_dotted_name (ms (configured quoted_tree)) quoted_tree
           "eu" "shop" "dbdriver" eq_refl eq_refl eq_refl).
Defined.

(** X12: for a name without a dot that is not a key of the tree, every one
    of the seven properties is missing; [InitDatastore] still returns
    [true] and registers a descriptor whose seven fields are empty. *)
Theorem InitDatastore_missing_section connect app s t :
  wf s -> Config (ms s) = Some t ->
  strings.bare app = true -> t !! app = None ->
  (InitDatastore connect app s).2 = Ret true /\
  exists d, descriptor app (InitDatastore connect app s).1 = Some d /\
            fields d = [""; ""; ""; ""; ""; ""; ""].
Proof.
  intros Hwf Hc Hbare Hnone.
  assert (forall k, Get t (dotted app k) = None) as Hget.
  { intros k. by apply Get_missing_section. }
  assert (configurable t app = true) as Hconf.
  { unfold configurable, db_fields, readable. cbn [forallb fst].
    by rewrite !Hget. }
  destruct (InitDatastore_descriptor connect app s t Hc Hwf Hconf)
    as (s' & d0 & Hrun & _).
  split; [by rewrite Hrun|].
  eexists. split; [by apply InitDatastore_descriptor_previous|].
  rewrite fields_Init_assemble.
  unfold config_fields, db_fields, field_value. cbn [map fst].
  by rewrite !Hget.
Qed.

Lemma InitDatastore_missing_section_witness :
  Config (ms (configured shop_tree)) = Some shop_tree /\
  strings.bare "billing" = true /\
  shop_tree !! "billing" = None /\
  (InitDatastore sqlite_engine "billing" (configured shop_tree)).2 = Ret true.
Proof.
  split; [reflexivity|]. split; [reflexivity|]. split; [reflexivity|].
  exact (proj1 (InitDatastore_missing_section sqlite_engine "billing"
                  (configured shop_tree) shop_tree (configured_wf shop_tree)
                  eq_refl eq_refl eq_refl)).
Defined.

(** ** The environment variables of [CreateAPI] *)

Lemma HOST_PORT_keys ua ub : ua +:+ "_HOST" <> ub +:+ "_PORT".
Proof.
  intros Heq.
  by destruct (append_same_length_inj ua ub "_HOST" "_PORT" eq_refl Heq).
Qed.

Lemma PORT_HOST_keys ua ub : ua +:+ "_PORT" <> ub +:+ "_HOST".
Proof.
  intros Heq.
  by destruct (append_same_length_inj ua ub "_PORT" "_HOST" eq_refl Heq).
Qed.

(** X13: the environment is read at each call. Setting the host variable of
    [app] changes the host of the address and leaves the port, setting the
    port variable changes the port and leaves the host, and with both
    variables unset the address is [127.0.0.1:7990]. *)
Theorem CreateAPI_override ToUpper env m app h q :
  address (CreateAPI ToUpper (<[ToUpper app +:+ "_HOST" := h]> env) m app)
    = h +:+ ":" +:+ default "7990" (env !! (ToUpper app +:+ "_PORT")) /\
  address (CreateAPI ToUpper (<[ToUpper app +:+ "_PORT" := q]> env) m app)
    = default "127.0.0.1" (env !! (ToUpper app +:+ "_HOST")) +:+ ":" +:+ q /\
  address (CreateAPI ToUpper
             (delete (ToUpper app +:+ "_HOST")
                (delete (ToUpper app +:+ "_PORT") env)) m app)
    = "127.0.0.1:7990".
Proof.
  unfold address, CreateAPI, config.Getenv. cbn [WebService fibre.Address].
  split; [|split].
  - rewrite lookup_insert_eq, lookup_insert_ne by apply HOST_PORT_keys.
    by destruct (env !! _).
  - rewrite lookup_insert_eq, lookup_insert_ne by apply PORT_HOST_keys.
    by destruct (env !! _).
  - rewrite lookup_delete_eq, lookup_delete_ne by apply HOST_PORT_keys.
    by rewrite lookup_delete_eq.
Qed.

(** X14: for an application whose upper-case name can be part of a
    variable name, another application is given the same listening address
    in every process environment exactly when the two names have the same
    upper-case form: names that differ in letter case only share their
    variables, and any other name can be told apart by an environment that
    a process can have. *)
Theorem CreateAPI_shared_address ToUpper m a b :
  variable_name (ToUpper a +:+ "_HOST") = true ->
  (forall env, process_environment env ->
               address (CreateAPI ToUpper env m a)
               = address (CreateAPI ToUpper env m b)) <->
  ToUpper a = ToUpper b.
Proof.
  intros Hname.
  unfold address, CreateAPI, config.Getenv. cbn [WebService fibre.Address].
  split; [|by intros ->].
  intros Hall. destruct (decide (ToUpper a = ToUpper b)) as [|Hne]; [done|].
  assert (process_environment {[ ToUpper a +:+ "_HOST" := "0.0.0.0" ]}) as Henv.
  { intros name value [<- <-]%lookup_singleton_Some. split; [done|].
    intros c Hc. simpl in Hc.
    repeat (destruct Hc as [<-|Hc]; [done|]). done. }
  specialize (Hall _ Henv).
  rewrite lookup_singleton_eq in Hall.
  rewrite !lookup_singleton_ne in Hall.
  - discriminate Hall.
  - apply HOST_PORT_keys.
  - intros Heq.
    by destruct (append_same_length_inj _ _ "_HOST" "_HOST" eq_refl Heq).
  - apply HOST_PORT_keys.
Qed.

Lemma CreateAPI_shared_address_witness :
  variable_name (ToUpperASCII "shop" +:+ "_HOST") = true /\
  forall env m, process_environment env ->
    address (CreateAPI ToUpperASCII env m "shop")
    = address (CreateAPI ToUpperASCII env m "Shop").
Proof.
  split; [reflexivity|]. intros env m.
  apply (CreateAPI_shared_address ToUpperASCII m "shop" "Shop" eq_refl).
  reflexivity.
Defined.

Example CreateAPI_case_insensitive env m :
  address (CreateAPI ToUpperASCII env m "shop")
  = address (CreateAPI ToUpperASCII env m "Shop").
Proof. reflexivity. Qed.

(** ** [Migrate], the caller of the README *)

Lemma descriptor_Some app s d :
  descriptor app s = Some d ->
  exists p, entry app s = Some p /\ heap s !! p = Some d.
Proof. unfold descriptor. destruct (entry app s) as [p|]; [by eauto|done]. Qed.

Lemma InitDatastore_entry_present connect app s :
  wf s -> is_Some (descriptor app (InitDatastore connect app s).1).
Proof.
  intros Hwf. pose proof Hwf as (registry & Hr & _).
  destruct (InitDatastore_touches connect app s _ Hr) as (p & Hp & Ht).
  pose proof (ensured_wf app s Hwf) as (reg1 & Hr1 & Halloc1 & _).
  pose proof (touches_only_entry _ _ _ app Ht) as Hea.
  destruct Ht as [_ [F HF]]. unfold descriptor. rewrite Hea, Hp, HF.
  unfold entry in Hp. rewrite Hr1 in Hp.
  apply lookup_alter_is_Some. by eapply Halloc1.
Qed.

Lemma Migrate_registered api app s d :
  app <> "" -> descriptor app s = Some d ->
  Migrate (Some api) app s =
    match superbase.Connection d with
    | None => Ret (Some (no_connection app))
    | Some _ => Ret None
    end.
Proof.
  intros Hne Hd. destruct (descriptor_Some _ _ _ Hd) as (p & Hp & Hh).
  unfold Migrate. by rewrite decide_False, Hp, Hh.
Qed.

(** X15: although [InitDatastore] returns [true] in both cases, [Migrate]
    called after it tells whether the engine accepted the descriptor: it
    returns nil when the connection was opened and the error about the
    missing connection when the engine refused. *)
Theorem Migrate_after_InitDatastore connect api app s t :
  wf s -> Config (ms s) = Some t -> configurable t app = true -> app <> "" ->
  Migrate (Some api) app (InitDatastore connect app s).1 =
    match connect (assemble t app (previous app s)) with
    | inl _ => Ret None
    | inr _ => Ret (Some (no_connection app))
    end.
Proof.
  intros Hwf Hc Hconf Hne.
  rewrite (Migrate_registered api app _ _ Hne
             (InitDatastore_descriptor_previous connect app s t Hc Hwf Hconf)).
  unfold superbase.Init. by destruct (connect _).
Qed.

Lemma Migrate_after_InitDatastore_witness :
  Config (ms (configured oracle_tree)) = Some oracle_tree /\
  configurable oracle_tree "shop" = true /\
  "shop" <> "" /\
  Migrate (Some (CreateAPI ToUpperASCII ∅ (ms (configured oracle_tree)) "shop"))
    "shop" (InitDatastore sqlite_engine "shop" (configured oracle_tree)).1
  = Ret (Some (no_connection "shop")).
Proof.
  split; [reflexivity|]. split; [reflexivity|]. split; [discriminate|].
  exact (Migrate_after_InitDatastore sqlite_engine
           (CreateAPI ToUpperASCII ∅ (ms (configured oracle_tree)) "shop")
           "shop" (configured oracle_tree) oracle_tree
           (configured_wf oracle_tree) eq_refl eq_refl ltac:(discriminate)).
Defined.

(** X16: [Migrate] reports a missing database configuration for a name that
    is not in the registry, and never after [InitDatastore] was called with
    that name, whatever the outcome of that call was; nor does it panic
    then. *)
Theorem Migrate_registration connect api app s :
  wf s -> app <> "" ->
  (entry app s = None ->
   Migrate (Some api) app s = Ret (Some (no_configuration app))) /\
  Migrate (Some api) app (InitDatastore connect app s).1
    <> Ret (Some (no_configuration app)) /\
  forall why, Migrate (Some api) app (InitDatastore connect app s).1
              <> Panicked why.
Proof.
  intros Hwf Hne. split.
  { intros He. unfold Migrate. by rewrite decide_False, He. }
  destruct (InitDatastore_entry_present connect app s Hwf) as [d Hd].
  rewrite (Migrate_registered api app _ d Hne Hd).
  split; [|by destruct (superbase.Connection d)].
  destruct (superbase.Connection d); [done|].
  unfold no_connection, no_configuration. intros Heq. discriminate Heq.
Qed.

Lemma Migrate_registration_witness :
  "shop" <> "" /\
  Migrate (Some (CreateAPI ToUpperASCII ∅ (ms (configured port_tree)) "shop"))
    "shop" (configured port_tree)
  = Ret (Some (no_configuration "shop")) /\
  Migrate (Some (CreateAPI ToUpperASCII ∅ (ms (configured port_tree)) "shop"))
    "shop" (InitDatastore sqlite_engine "shop" (configured port_tree)).1
  <> Ret (Some (no_configuration "shop")).
Proof.
  split; [discriminate|].
  destruct (Migrate_registration sqlite_engine
              (CreateAPI ToUpperASCII ∅ (ms (configured port_tree)) "shop")
              "shop" (configured port_tree) (configured_wf port_tree)
              ltac:(discriminate)) as (Hnone & Hafter & _).
  split; [exact (Hnone eq_refl)|exact Hafter].
Defined.
